(** * Storefront widgets: thumbnail gallery and size-guide drawer

    A shallow embedding of the two browser controllers of the theme:

    - [Gallery]: class [ProductMediaGalleryMainThumbnails]
      (main image with a scrollable thumbnail carousel);
    - [Drawer]: custom element [SizeGuideDrawer]
      (assets/size-guide-drawer.js).

    The DOM is the part of the page each controller reads and writes:
    the elements its selectors reach, their class lists, attributes,
    listeners and geometry.  Methods are state transformers that may end
    in a thrown [TypeError], as the JavaScript does when it dereferences
    [null].  Callbacks handed to the browser ([requestAnimationFrame],
    [addEventListener]) or to the theme's [onAnimationEnd] are kept as data
    (the variables the closure captured) and run later by the environment. *)

From Stdlib Require Import ZArith QArith Lia String Ascii.
From stdpp Require Import base option list strings gmap pretty.

#[local] Open Scope string_scope.
#[local] Open Scope Z_scope.

(** ** JavaScript values and control *)

(** The numbers the controllers compute with: integers, and the two
    non-finite results of [parseInt] and of a division. *)
Inductive jsnum :=
| JNaN
| JInf (negative : bool)
| JNum (z : Z).

(** [ToBoolean] on a number: [NaN] and zero are falsy. *)
Definition truthy (n : jsnum) : bool :=
  match n with
  | JNaN => false
  | JInf _ => true
  | JNum z => negb (z =? 0)
  end.

(** [a || b] on numbers. *)
Definition js_or (a b : jsnum) : jsnum := if truthy a then a else b.

(** [a + b] on numbers. *)
Definition js_add (a b : jsnum) : jsnum :=
  match a, b with
  | JNum x, JNum y => JNum (x + y)
  | JNaN, _ | _, JNaN => JNaN
  | JInf s, JInf t => if Bool.eqb s t then JInf s else JNaN
  | JInf s, JNum _ | JNum _, JInf s => JInf s
  end.

(** [ToBoolean] on a string-or-null: [null] and the empty string are falsy. *)
Definition truthy_str (s : option string) : bool :=
  match s with
  | Some s => negb (String.eqb s "")
  | None => false
  end.

Inductive exn := TypeError (what : string).

Inductive completion (A : Type) :=
| Normal (a : A)
| Throw (e : exn).
Arguments Normal {A} a.
Arguments Throw {A} e.

(** A method body: reads and writes the state [S], returns or throws.
    What was written before a throw stays written. *)
Definition M (S A : Type) : Type := S → S * completion A.

Definition ret {S A} (a : A) : M S A := λ s, (s, Normal a).
Definition throw {S A} (e : exn) : M S A := λ s, (s, Throw e).
Definition bind {S A B} (m : M S A) (k : A → M S B) : M S B :=
  λ s, match m s with
       | (s', Normal a) => k a s'
       | (s', Throw e) => (s', Throw e)
       end.
Definition gets {S A} (f : S → A) : M S A := λ s, (s, Normal (f s)).
Definition modify {S} (f : S → S) : M S unit := λ s, (f s, Normal tt).

Declare Scope js_scope.
Delimit Scope js_scope with js.
Notation "'let*' x ':=' m 'in' k" := (bind m (λ x, k))
  (at level 10, x name, m at level 100, k at level 200, only parsing) : js_scope.
Notation "m '>>' k" := (bind m (λ _, k))
  (at level 90, right associativity, only parsing) : js_scope.
#[local] Open Scope js_scope.

Definition returns {S A} (r : S * completion A) : bool :=
  match r.2 with Normal _ => true | Throw _ => false end.

(** [m] leaves the observation [f] of the state as it found it, whether
    it returns or throws. *)
Definition preserves {S A X} (f : S → X) (m : M S A) : Prop :=
  ∀ s, f (m s).1 = f s.

(** [m] keeps the state inside [P], whether it returns or throws. *)
Definition maintains {S A} (P : S → Prop) (m : M S A) : Prop :=
  ∀ s, P s → P (m s).1.

(** ** [DOMTokenList] *)
Module ClassList.
Definition contains (c : string) (l : list string) : bool := bool_decide (c ∈ l).
Definition add (c : string) (l : list string) : list string :=
  if contains c l then l else l ++ [c].
Definition remove (c : string) (l : list string) : list string :=
  filter (λ x, x ≠ c) l.
End ClassList.

(** [nodeList[i]] for a JavaScript number [i]: [undefined] out of range. *)
Definition item {A} (l : list A) (i : Z) : option A :=
  if i <? 0 then None else l !! Z.to_nat i.

(** [nodeList[i]?.f()] where [f] mutates the element. *)
Definition alter_item {A} (f : A → A) (i : Z) (l : list A) : list A :=
  if i <? 0 then l else alter f (Z.to_nat i) l.

(** [a < b] on pixel values. *)
Definition Qlt_bool (a b : Q) : bool := negb (Qle_bool b a).

(** ** String helpers of the language *)

Definition is_digit (c : ascii) : bool :=
  let n := nat_of_ascii c in (48 <=? n)%nat && (n <=? 57)%nat.

Definition digit_value (c : ascii) : Z := Z.of_nat (nat_of_ascii c) - 48.

(** The white space [parseInt] skips, within ASCII:
    TAB, LF, VT, FF, CR and SPACE. *)
Definition is_space (c : ascii) : bool :=
  let n := nat_of_ascii c in
  ((9 <=? n)%nat && (n <=? 13)%nat) || (n =? 32)%nat.

Fixpoint skip_spaces (s : string) : string :=
  match s with
  | String c r => if is_space c then skip_spaces r else s
  | EmptyString => s
  end.

(** Longest prefix of decimal digits, read as a number; [None] when the
    prefix is empty. *)
Fixpoint read_digits (s : string) (acc : option Z) : option Z :=
  match s with
  | String c r =>
      if is_digit c
      then read_digits r (Some (10 * default 0 acc + digit_value c))
      else acc
  | EmptyString => acc
  end.

Definition hex_value (c : ascii) : option Z :=
  let n := nat_of_ascii c in
  if is_digit c then Some (Z.of_nat n - 48)
  else if (97 <=? n)%nat && (n <=? 102)%nat then Some (Z.of_nat n - 87)
  else if (65 <=? n)%nat && (n <=? 70)%nat then Some (Z.of_nat n - 55)
  else None.

Fixpoint read_hex (s : string) (acc : option Z) : option Z :=
  match s with
  | String c r =>
      match hex_value c with
      | Some v => read_hex r (Some (16 * default 0 acc + v))
      | None => acc
      end
  | EmptyString => acc
  end.

(** [parseInt(s)] with no radix argument: skip white space, take a sign,
    take a [0x]/[0X] prefix as radix 16, read the longest run of digits;
    [NaN] when there is none.  Integers are exact here. *)
Definition parseInt (s : string) : jsnum :=
  let s := skip_spaces s in
  let '(sign, s) :=
    match s with
    | String "-" r => (-1, r)
    | String "+" r => (1, r)
    | _ => (1, s)
    end in
  let digits :=
    match s with
    | String "0" (String "x" r) | String "0" (String "X" r) => read_hex r None
    | _ => read_digits s None
    end in
  match digits with
  | Some n => JNum (sign * n)
  | None => JNaN
  end.

Fixpoint drop_digits (s : string) : string :=
  match s with
  | String c r => if is_digit c then drop_digits r else s
  | EmptyString => s
  end.

Definition starts_with_digit (s : string) : bool :=
  match s with
  | String c _ => is_digit c
  | EmptyString => false
  end.

Fixpoint strip_prefix (p s : string) : option string :=
  match p, s with
  | EmptyString, _ => Some s
  | String a p', String b s' => if Ascii.eqb a b then strip_prefix p' s' else None
  | String _ _, EmptyString => None
  end.

(** [s.replace(/\/open\/\d+/, "/open/" + idx)]: the first place where
    [/open/] is followed by a digit is rewritten, digits taken greedily. *)
Fixpoint replace_open (s : string) (idx : string) : string :=
  match s with
  | EmptyString => EmptyString
  | String c r =>
      match strip_prefix "/open/" s with
      | Some rest =>
          if starts_with_digit rest
          then "/open/" ++ idx ++ drop_digits rest
          else String c (replace_open r idx)
      | None => String c (replace_open r idx)
      end
  end.

(** ** The gallery: [ProductMediaGalleryMainThumbnails] *)
Module Gallery.

(** The two edges of a [DOMRect] the controller reads. *)
Record rect := { r_left : Q; r_right : Q }.

(** A [.thumbnail-item]: its class list, whether it holds a
    [.thumbnail-btn], and where layout currently puts it. *)
Record thumbnail := {
  th_classes : list string;
  th_button : bool;
  th_rect : rect
}.

(** The [.thumbnail-carousel-wrapper] scroll container.  [scrollBy] is
    smooth and clamped by the browser, so the controller only issues
    requests: [scroll_requests] holds their [left] amounts, oldest
    first. *)
Record scroller := {
  scrollLeft : Q;
  scrollWidth : Z;
  clientWidth : Z;
  offsetWidth : Z;
  sc_rect : rect;
  scroll_requests : list Q
}.

Record nav_button := { disabled : bool }.

(** The node matched by
    ['.product-media-constraint-wrapper, .product-media']. *)
Record media_content := { mc_class : string; mc_html : string }.

(** A [.product-media-container]: the attributes of its
    [.product-media-container__zoom-button] and its media node, each
    when present. *)
Record media_container := {
  zoom_button : option (gmap string string);
  media : option media_content
}.

(** The [.main-image-container] with the first
    [.product-media-container] inside it. *)
Record main_image := { main_content : option media_container }.

(** A node of the hidden pool carrying [data-media-index]. *)
Record hidden_node := {
  data_media_index : string;
  hn_media : option media_content
}.

Inductive direction := Prev | Next | Other (s : string).

(** The closures the controller registers, as the variables they
    capture. *)
Inductive handler :=
| OnNavClick (d : direction)     (* () => this.scrollThumbnails(d) *)
| OnThumbClick (index : Z)       (* () => this.switchMainImage(index) *)
| OnScroll                       (* () => this.updateNavigationState() *)
| OnResize.                      (* updateThumbnailsPerView; updateNavigationState *)

Inductive target :=
| PrevBtn | NextBtn | ThumbBtn (k : nat) | Wrapper | Window.

#[export] Instance target_eq_dec : EqDecision target.
Proof. solve_decision. Defined.

Record gallery := {
  mainImageContainer : option main_image;
  thumbnailWrapper : option scroller;
  thumbnailItems : list thumbnail;
  prevBtn : option nav_button;
  nextBtn : option nav_button;
  hiddenMedia : option (list hidden_node);
  currentIndex : Z;
  thumbnailsPerView : jsnum;
  thumbnailSize : jsnum;
  thumbnailGap : jsnum;
  (* reached through [this.container] *)
  carouselContainer : option (gmap string string);
  listeners : list (target * handler)
}.

Definition set_mainImageContainer v g :=
  {| mainImageContainer := v; thumbnailWrapper := thumbnailWrapper g;
     thumbnailItems := thumbnailItems g; prevBtn := prevBtn g; nextBtn := nextBtn g;
     hiddenMedia := hiddenMedia g; currentIndex := currentIndex g;
     thumbnailsPerView := thumbnailsPerView g; thumbnailSize := thumbnailSize g;
     thumbnailGap := thumbnailGap g; carouselContainer := carouselContainer g;
     listeners := listeners g |}.
Definition set_thumbnailWrapper v g :=
  {| mainImageContainer := mainImageContainer g; thumbnailWrapper := v;
     thumbnailItems := thumbnailItems g; prevBtn := prevBtn g; nextBtn := nextBtn g;
     hiddenMedia := hiddenMedia g; currentIndex := currentIndex g;
     thumbnailsPerView := thumbnailsPerView g; thumbnailSize := thumbnailSize g;
     thumbnailGap := thumbnailGap g; carouselContainer := carouselContainer g;
     listeners := listeners g |}.
Definition set_thumbnailItems v g :=
  {| mainImageContainer := mainImageContainer g; thumbnailWrapper := thumbnailWrapper g;
     thumbnailItems := v; prevBtn := prevBtn g; nextBtn := nextBtn g;
     hiddenMedia := hiddenMedia g; currentIndex := currentIndex g;
     thumbnailsPerView := thumbnailsPerView g; thumbnailSize := thumbnailSize g;
     thumbnailGap := thumbnailGap g; carouselContainer := carouselContainer g;
     listeners := listeners g |}.
Definition set_navButtons p n g :=
  {| mainImageContainer := mainImageContainer g; thumbnailWrapper := thumbnailWrapper g;
     thumbnailItems := thumbnailItems g; prevBtn := p; nextBtn := n;
     hiddenMedia := hiddenMedia g; currentIndex := currentIndex g;
     thumbnailsPerView := thumbnailsPerView g; thumbnailSize := thumbnailSize g;
     thumbnailGap := thumbnailGap g; carouselContainer := carouselContainer g;
     listeners := listeners g |}.
Definition set_currentIndex v g :=
  {| mainImageContainer := mainImageContainer g; thumbnailWrapper := thumbnailWrapper g;
     thumbnailItems := thumbnailItems g; prevBtn := prevBtn g; nextBtn := nextBtn g;
     hiddenMedia := hiddenMedia g; currentIndex := v;
     thumbnailsPerView := thumbnailsPerView g; thumbnailSize := thumbnailSize g;
     thumbnailGap := thumbnailGap g; carouselContainer := carouselContainer g;
     listeners := listeners g |}.
Definition set_thumbnailsPerView v g :=
  {| mainImageContainer := mainImageContainer g; thumbnailWrapper := thumbnailWrapper g;
     thumbnailItems := thumbnailItems g; prevBtn := prevBtn g; nextBtn := nextBtn g;
     hiddenMedia := hiddenMedia g; currentIndex := currentIndex g;
     thumbnailsPerView := v; thumbnailSize := thumbnailSize g;
     thumbnailGap := thumbnailGap g; carouselContainer := carouselContainer g;
     listeners := listeners g |}.
Definition set_carouselContainer v g :=
  {| mainImageContainer := mainImageContainer g; thumbnailWrapper := thumbnailWrapper g;
     thumbnailItems := thumbnailItems g; prevBtn := prevBtn g; nextBtn := nextBtn g;
     hiddenMedia := hiddenMedia g; currentIndex := currentIndex g;
     thumbnailsPerView := thumbnailsPerView g; thumbnailSize := thumbnailSize g;
     thumbnailGap := thumbnailGap g; carouselContainer := v;
     listeners := listeners g |}.
Definition set_listeners v g :=
  {| mainImageContainer := mainImageContainer g; thumbnailWrapper := thumbnailWrapper g;
     thumbnailItems := thumbnailItems g; prevBtn := prevBtn g; nextBtn := nextBtn g;
     hiddenMedia := hiddenMedia g; currentIndex := currentIndex g;
     thumbnailsPerView := thumbnailsPerView g; thumbnailSize := thumbnailSize g;
     thumbnailGap := thumbnailGap g; carouselContainer := carouselContainer g;
     listeners := v |}.

Definition th_add (c : string) (t : thumbnail) : thumbnail :=
  {| th_classes := ClassList.add c (th_classes t);
     th_button := th_button t; th_rect := th_rect t |}.
Definition th_remove (c : string) (t : thumbnail) : thumbnail :=
  {| th_classes := ClassList.remove c (th_classes t);
     th_button := th_button t; th_rect := th_rect t |}.

(** [wrapper.scrollBy({ left, behavior: 'smooth' })] *)
Definition scrollBy (left : Q) (w : scroller) : scroller :=
  {| scrollLeft := scrollLeft w; scrollWidth := scrollWidth w;
     clientWidth := clientWidth w; offsetWidth := offsetWidth w;
     sc_rect := sc_rect w; scroll_requests := scroll_requests w ++ [left] |}.

(** [this.thumbnailWrapper.<member>]: a [TypeError] when the wrapper
    is [null]. *)
Definition theWrapper : M gallery scroller :=
  let* w := gets thumbnailWrapper in
  match w with
  | Some w => ret w
  | None => throw (TypeError "this.thumbnailWrapper is null")
  end.

Definition wrapperScrollBy (left : Q) : M gallery unit :=
  let* w := theWrapper in
  modify (set_thumbnailWrapper (Some (scrollBy left w))).

Definition ensureThumbnailVisible (index : Z) : M gallery unit :=
  let* items := gets thumbnailItems in
  match item items index with
  | None => ret tt
  | Some thumbnail =>
      let* w := theWrapper in
      let containerRect := sc_rect w in
      let thumbnailRect := th_rect thumbnail in
      if Qlt_bool (r_left thumbnailRect) (r_left containerRect) then
        (* Thumbnail is to the left of visible area *)
        wrapperScrollBy (r_left thumbnailRect - r_left containerRect - 10)%Q
      else if Qlt_bool (r_right containerRect) (r_right thumbnailRect) then
        (* Thumbnail is to the right of visible area *)
        wrapperScrollBy (r_right thumbnailRect - r_right containerRect + 10)%Q
      else ret tt
  end.

(** [hiddenMedia.querySelector('[data-media-index="i"]')] *)
Definition query_media_index (pool : list hidden_node) (i : string)
  : option hidden_node :=
  List.find (λ n, String.eqb (data_media_index n) i) pool.

(** Update zoom button target: rewrite [on:click] when it is set and
    not empty, and set [data-current-index]. *)
Definition retarget_zoom (index : Z) (zb : gmap string string)
  : gmap string string :=
  let onClickAttr := zb !! "on:click" in
  let zb :=
    match onClickAttr with
    | Some a =>
        if truthy_str onClickAttr
        then <["on:click" := replace_open a (pretty index)]> zb
        else zb
    | None => zb
    end in
  <["data-current-index" := pretty index]> zb.

(** The body of [if (newMediaElement && this.mainImageContainer)], once
    [mainImageContent] is known not to be [null]. *)
Definition swap_content (index : Z) (newMediaElement : hidden_node)
    (mainImageContent : media_container) : media_container :=
  let existingZoomButton := zoom_button mainImageContent in
  let mediaContent := media mainImageContent in
  let replaced :=
    match mediaContent, hn_media newMediaElement with
    | Some _, Some newMediaContent => Some newMediaContent
    | _, _ => mediaContent
    end in
  {| zoom_button := retarget_zoom index <$> existingZoomButton;
     media := replaced |}.

Definition switchMainImage (index : Z) : M gallery unit :=
  let* cur := gets currentIndex in
  if bool_decide (index = cur) then ret tt else
  (* Update active thumbnail *)
  modify (λ g, set_thumbnailItems
                 (alter_item (th_remove "active") cur (thumbnailItems g)) g) >>
  modify (λ g, set_thumbnailItems
                 (alter_item (th_add "active") index (thumbnailItems g)) g) >>
  (* Switch main image *)
  (let* pool := gets hiddenMedia in
   match pool with
   | None => throw (TypeError "this.hiddenMedia is null")
   | Some pool =>
       let* main := gets mainImageContainer in
       match query_media_index pool (pretty index), main with
       | Some newMediaElement, Some main =>
           match main_content main with
           | None => throw (TypeError "mainImageContent is null")
           | Some mainImageContent =>
               modify (set_mainImageContainer
                 (Some {| main_content :=
                     Some (swap_content index newMediaElement mainImageContent) |}))
           end
       | _, _ => ret tt
       end
   end) >>
  modify (set_currentIndex index) >>
  (* Ensure the selected thumbnail is visible *)
  ensureThumbnailVisible index.

Definition scrollThumbnails (d : direction) : M gallery unit :=
  let* w := theWrapper in
  let containerWidth := offsetWidth w in
  let scrollAmount := (inject_Z containerWidth * (8 # 10))%Q in
  match d with
  | Next => wrapperScrollBy scrollAmount
  | _ => wrapperScrollBy (- scrollAmount)%Q
  end.

Definition updateNavigationState : M gallery unit :=
  let* p := gets prevBtn in
  let* n := gets nextBtn in
  match p, n with
  | Some _, Some _ =>
      let* w := theWrapper in
      let maxScroll := scrollWidth w - clientWidth w in
      modify (set_navButtons
        (Some {| disabled := Qle_bool (scrollLeft w) 0 |})
        (Some {| disabled := Qle_bool (inject_Z (maxScroll - 1)) (scrollLeft w) |}))
  | _, _ => ret tt
  end.

Definition setThumbnailContainerAttributes : M gallery unit :=
  let* c := gets carouselContainer in
  match c with
  | Some attrs =>
      let* items := gets thumbnailItems in
      modify (set_carouselContainer
        (Some (<["data-items-count" := pretty (Z.of_nat (length items))]> attrs)))
  | None => ret tt
  end.

(** [Math.floor(containerWidth / itemWidth)] for an integer width. *)
Definition floor_div (a : Z) (b : jsnum) : jsnum :=
  match b with
  | JNaN => JNaN
  | JInf _ => JNum 0
  | JNum b =>
      if b =? 0 then
        (if a =? 0 then JNaN else JInf (a <? 0))
      else JNum (a / b)
  end.

Definition updateThumbnailsPerView : M gallery unit :=
  let* w := theWrapper in
  let containerWidth := offsetWidth w in
  let* size := gets thumbnailSize in
  let* gap := gets thumbnailGap in
  let itemWidth := js_add size gap in
  modify (set_thumbnailsPerView (floor_div containerWidth itemWidth)).

Definition addEventListener (t : target) (h : handler) : M gallery unit :=
  modify (λ g, set_listeners (listeners g ++ [(t, h)]) g).

Definition setupThumbnailNavigation : M gallery unit :=
  let* p := gets prevBtn in
  (if p is Some _ then addEventListener PrevBtn (OnNavClick Prev) else ret tt) >>
  let* n := gets nextBtn in
  if n is Some _ then addEventListener NextBtn (OnNavClick Next) else ret tt.

Definition setupScrollListener : M gallery unit :=
  let* w := gets thumbnailWrapper in
  if w is Some _ then addEventListener Wrapper OnScroll else ret tt.

(** [thumbnailItems.forEach((item, index) => ...)], from [index] on. *)
Fixpoint forEach_thumb (items : list thumbnail) (index : nat) : M gallery unit :=
  match items with
  | [] => ret tt
  | it :: rest =>
      (if th_button it
       then addEventListener (ThumbBtn index) (OnThumbClick (Z.of_nat index))
       else ret tt) >>
      forEach_thumb rest (S index)
  end.

Definition setupMainImageSwitching : M gallery unit :=
  let* items := gets thumbnailItems in
  forEach_thumb items 0%nat.

Definition init : M gallery unit :=
  setupThumbnailNavigation >>
  setupMainImageSwitching >>
  setupScrollListener >>
  updateNavigationState >>
  setThumbnailContainerAttributes >>
  (* Handle window resize *)
  addEventListener Window OnResize.

(** What [container.querySelector(All)] and [getComputedStyle(container)]
    give the constructor and [setThumbnailContainerAttributes].  The
    [.thumbnail-carousel] the constructor also looks up is never used. *)
Record container := {
  q_main_image_container : option main_image;
  q_thumbnail_carousel_wrapper : option scroller;
  q_thumbnail_items : list thumbnail;
  q_prev : option nav_button;
  q_next : option nav_button;
  q_hidden_media : option (list hidden_node);
  q_carousel_container : option (gmap string string);
  computed_style : gmap string string
}.

(** [getComputedStyle(c).getPropertyValue(name)]: the empty string when
    the property is not set. *)
Definition getPropertyValue (c : container) (name : string) : string :=
  default "" (computed_style c !! name).

(** [parseInt(getComputedStyle(c).getPropertyValue(name)) || d] *)
Definition css_int (c : container) (name : string) (d : Z) : jsnum :=
  js_or (parseInt (getPropertyValue c name)) (JNum d).

Definition constructor (c : container) : gallery * completion unit :=
  init {|
    mainImageContainer := q_main_image_container c;
    thumbnailWrapper := q_thumbnail_carousel_wrapper c;
    thumbnailItems := q_thumbnail_items c;
    prevBtn := q_prev c;
    nextBtn := q_next c;
    hiddenMedia := q_hidden_media c;
    currentIndex := 0;
    thumbnailsPerView := css_int c "--thumbnails-per-view" 3;
    thumbnailSize := css_int c "--thumbnail-size" 100;
    thumbnailGap := css_int c "--thumbnail-gap" 10;
    carouselContainer := q_carousel_container c;
    listeners := []
  |}.

(** The body of a registered closure. *)
Definition run_handler (h : handler) : M gallery unit :=
  match h with
  | OnNavClick d => scrollThumbnails d
  | OnThumbClick index => switchMainImage index
  | OnScroll => updateNavigationState
  | OnResize => updateThumbnailsPerView >> updateNavigationState
  end.

(** The browser delivers an event to [t]: every listener registered on
    [t] runs, in registration order; an exception in one is reported
    and does not stop the others. *)
Definition dispatch (t : target) (g : gallery) : gallery :=
  foldl (λ g '(t', h), if bool_decide (t' = t) then (run_handler h g).1 else g)
        g (listeners g).

(** *** Observations and reachable states *)

(** The scroll requests issued so far. *)
Definition requests (g : gallery) : list Q :=
  match thumbnailWrapper g with
  | Some w => scroll_requests w
  | None => []
  end.

(** The media node and the zoom button shown in the main display. *)
Definition shown_media (g : gallery) : option media_content :=
  c ← (mainImageContainer g ≫= main_content); media c.

Definition shown_zoom (g : gallery) : option (gmap string string) :=
  c ← (mainImageContainer g ≫= main_content); zoom_button c.

Definition in_range (g : gallery) (index : Z) : Prop :=
  0 ≤ index < Z.of_nat (length (thumbnailItems g)).

(** [currentIndex] names an existing thumbnail. *)
Definition valid_index (g : gallery) : Prop := in_range g (currentIndex g).

(** A registered closure only ever activates one of [n] thumbnails. *)
Definition handler_in_range (n : nat) (h : handler) : Prop :=
  match h with
  | OnThumbClick index => 0 ≤ index < Z.of_nat n
  | _ => True
  end.

(** The invariant of a controller over [n] thumbnails. *)
Definition consistent (n : nat) (g : gallery) : Prop :=
  length (thumbnailItems g) = n ∧
  0 ≤ currentIndex g < Z.of_nat n ∧
  Forall (λ th, handler_in_range n th.2) (listeners g).


(** The methods of the controller, as calls. *)
Inductive call :=
| CallSwitchMainImage (index : Z)
| CallEnsureThumbnailVisible (index : Z)
| CallScrollThumbnails (d : direction)
| CallUpdateNavigationState
| CallSetThumbnailContainerAttributes
| CallUpdateThumbnailsPerView.

Definition invoke (k : call) : M gallery unit :=
  match k with
  | CallSwitchMainImage index => switchMainImage index
  | CallEnsureThumbnailVisible index => ensureThumbnailVisible index
  | CallScrollThumbnails d => scrollThumbnails d
  | CallUpdateNavigationState => updateNavigationState
  | CallSetThumbnailContainerAttributes => setThumbnailContainerAttributes
  | CallUpdateThumbnailsPerView => updateThumbnailsPerView
  end.

Definition call_in_range (g : gallery) (k : call) : Prop :=
  match k with
  | CallSwitchMainImage index => in_range g index
  | _ => True
  end.

(** The states a controller built over [c] goes through: events
    delivered to its listeners, and methods called with an index that
    names a thumbnail. *)
Inductive reachable (c : container) : gallery → Prop :=
| reach_constructed : reachable c (constructor c).1
| reach_event g t : reachable c g → reachable c (dispatch t g)
| reach_call g k :
    reachable c g → call_in_range g k → reachable c (invoke k g).1.

(** How a field ends up after [parseInt(value) || d]. *)
Definition reads_css_int (c : container) (name : string) (d : Z)
    (field : jsnum) : Prop :=
  (computed_style c !! name = None → field = JNum d) ∧
  (parseInt (getPropertyValue c name) = JNaN → field = JNum d) ∧
  (parseInt (getPropertyValue c name) = JNum 0 → field = JNum d) ∧
  (∀ z, z ≠ 0 → parseInt (getPropertyValue c name) = JNum z → field = JNum z).

(** *** Sample pages *)

Definition sample_thumb (l r : Q) : thumbnail :=
  {| th_classes := []; th_button := true;
     th_rect := {| r_left := l; r_right := r |} |}.

Definition sample_media (n : string) : media_content :=
  {| mc_class := "product-media"; mc_html := n |}.

Definition sample_pool : list hidden_node :=
  [ {| data_media_index := "0"; hn_media := Some (sample_media "image-0") |};
    {| data_media_index := "1"; hn_media := Some (sample_media "image-1") |};
    {| data_media_index := "2"; hn_media := Some (sample_media "image-2") |};
    {| data_media_index := "3"; hn_media := Some (sample_media "image-3") |};
    {| data_media_index := "4"; hn_media := Some (sample_media "image-4") |} ].

Definition sample_wrapper : scroller :=
  {| scrollLeft := 0; scrollWidth := 540; clientWidth := 320; offsetWidth := 320;
     sc_rect := {| r_left := 0; r_right := 320 |}; scroll_requests := [] |}.

(** Five thumbnails of 100px with a 10px gap in a 320px strip; the gap
    property is set to zero. *)
Definition sample_container : container :=
  {| q_main_image_container := Some {| main_content := Some
       {| zoom_button := Some (<["on:click" := "/zoom-dialog/open/0"]> ∅);
          media := Some (sample_media "image-0") |} |};
     q_thumbnail_carousel_wrapper := Some sample_wrapper;
     q_thumbnail_items :=
       [ th_add "active" (sample_thumb 0 100);
         sample_thumb 110 210; sample_thumb 220 320;
         sample_thumb 330 430; sample_thumb 440 540 ];
     q_prev := Some {| disabled := false |};
     q_next := Some {| disabled := false |};
     q_hidden_media := Some sample_pool;
     q_carousel_container := Some ∅;
     computed_style :=
       <["--thumbnail-size" := "100px"]> (<["--thumbnail-gap" := "0"]> ∅) |}.

Definition sample : gallery := (constructor sample_container).1.


(** The same page where [.main-image-container] holds no
    [.product-media-container]. *)
Definition sample_no_content : gallery :=
  set_mainImageContainer (Some {| main_content := None |}) sample.

(** A strip narrower than its first thumbnail: the thumbnail sticks
    out on both sides. *)
Definition narrow_wrapper : scroller :=
  {| scrollLeft := 20; scrollWidth := 540; clientWidth := 60; offsetWidth := 60;
     sc_rect := {| r_left := 0; r_right := 60 |}; scroll_requests := [] |}.

Definition sample_narrow : gallery :=
  set_thumbnailWrapper (Some narrow_wrapper)
    (set_thumbnailItems [ sample_thumb (-20) 80; sample_thumb 90 190 ] sample).

(** *** The listeners of a controller *)

Definition is_active (t : thumbnail) : bool :=
  ClassList.contains "active" (th_classes t).

(** The click listeners [setupMainImageSwitching] registers for the
    thumbnails [items], the first of which has index [from]. *)
Fixpoint thumb_wiring (items : list thumbnail) (from : nat)
  : list (target * handler) :=
  match items with
  | [] => []
  | it :: rest =>
      (if th_button it then [(ThumbBtn from, OnThumbClick (Z.of_nat from))] else [])
      ++ thumb_wiring rest (S from)
  end.

(** The listeners the three setup methods register, in order. *)
Definition wiring (g : gallery) : list (target * handler) :=
  (if prevBtn g is Some _ then [(PrevBtn, OnNavClick Prev)] else []) ++
  (if nextBtn g is Some _ then [(NextBtn, OnNavClick Next)] else []) ++
  thumb_wiring (thumbnailItems g) 0 ++
  (if thumbnailWrapper g is Some _ then [(Wrapper, OnScroll)] else []).

(** What the delivery of an event to [t] comes to for a controller
    built over [c]: the one method call behind it, or nothing when the
    element the listener would sit on is missing. *)
Definition reaction (c : container) (t : target) : M gallery unit :=
  match t with
  | PrevBtn => if q_prev c is Some _ then scrollThumbnails Prev else ret tt
  | NextBtn => if q_next c is Some _ then scrollThumbnails Next else ret tt
  | ThumbBtn k =>
      match q_thumbnail_items c !! k with
      | Some it => if th_button it then switchMainImage (Z.of_nat k) else ret tt
      | None => ret tt
      end
  | Wrapper =>
      if q_thumbnail_carousel_wrapper c is Some _ then updateNavigationState
      else ret tt
  | Window =>
      if returns (constructor c)
      then updateThumbnailsPerView >> updateNavigationState
      else ret tt
  end.

(** A page with both navigation buttons and no scroll container. *)
Definition sample_no_wrapper_container : container :=
  {| q_main_image_container := q_main_image_container sample_container;
     q_thumbnail_carousel_wrapper := None;
     q_thumbnail_items := q_thumbnail_items sample_container;
     q_prev := q_prev sample_container;
     q_next := q_next sample_container;
     q_hidden_media := q_hidden_media sample_container;
     q_carousel_container := q_carousel_container sample_container;
     computed_style := computed_style sample_container |}.

Definition sample_no_wrapper : gallery := (constructor sample_no_wrapper_container).1.

(** The sample page without its [.hidden-media] pool. *)
Definition sample_no_pool : gallery :=
  (constructor
     {| q_main_image_container := q_main_image_container sample_container;
        q_thumbnail_carousel_wrapper := q_thumbnail_carousel_wrapper sample_container;
        q_thumbnail_items := q_thumbnail_items sample_container;
        q_prev := q_prev sample_container;
        q_next := q_next sample_container;
        q_hidden_media := None;
        q_carousel_container := q_carousel_container sample_container;
        computed_style := computed_style sample_container |}).1.

End Gallery.

(** ** The drawer: [SizeGuideDrawer] *)
Module Drawer.

(** A closure [() => this.close()]; two closures made at different
    times are different listeners. *)
Inductive closure := CloseClosure (serial : nat).

#[export] Instance closure_eq_dec : EqDecision closure.
Proof. solve_decision. Defined.

(** A [details] element: attributes, class list, the attributes of the
    first [summary] below it, and the panel elements below it in
    document order, named by their place in the page's [panels].  The
    details elements of a page are not nested in each other. *)
Record details_el := {
  d_attrs : gmap string string;
  d_classes : list string;
  d_summary : option (gmap string string);
  d_children : list nat
}.

(** An element the drawer relocates (the [.size-guide-drawer] panel,
    the [.size-guide-drawer__backdrop]): class list, click listeners,
    and the click listeners of the first
    [.size-guide-drawer__close-button] inside it, when it has one.
    Panels sit side by side, none inside another. *)
Record panel_el := {
  p_classes : list string;
  p_click : list closure;
  p_close_button : option (list closure)
}.

(** The [div.size-guide-drawer-wrapper] made by [#createDrawerWrapper]. *)
Record wrapper_el := {
  w_classes : list string;
  w_style : gmap string string;
  w_children : list nat;
  w_in_body : bool
}.

Inductive event_target :=
| NotAnElement
| ElementUnder (closest_details : option nat).

Record event := { key : string; target : event_target }.

Inductive focus_target := FocusWrapper | FocusDetails (d : nat).

Inductive anim_target := OnPanel (id : nat) | OnDetails (d : nat).

(** Continuations handed to [onAnimationEnd], as what they capture. *)
Inductive callback :=
| TrapFocus (details : nat)
| CloseEnd (details : nat) (drawer backdrop : option nat).

Inductive task :=
| Frame (details : nat) (drawer : option nat)
| AnimationEnd (el : anim_target) (cb : callback).

(** The component's private fields and the part of the page it works
    on.  Elements are named by their place in [details] and [panels]; the
    script never creates or destroys one of them. *)
Record state := {
  (* the component *)
  refs_details : nat;
  drawerWrapper : option wrapper_el;
  boundBackdropClick : option closure;
  boundCloseClick : option closure;
  keyup_listener : bool;
  (* the page *)
  body_overflow : string;
  details : list details_el;
  panels : list panel_el;
  (* the environment *)
  closures : nat;
  pending : list task;
  focus_trap : option focus_target
}.

Definition set_drawerWrapper v st :=
  {| refs_details := refs_details st; drawerWrapper := v;
     boundBackdropClick := boundBackdropClick st;
     boundCloseClick := boundCloseClick st; keyup_listener := keyup_listener st;
     body_overflow := body_overflow st; details := details st;
     panels := panels st; closures := closures st; pending := pending st;
     focus_trap := focus_trap st |}.
Definition set_boundBackdropClick v st :=
  {| refs_details := refs_details st; drawerWrapper := drawerWrapper st;
     boundBackdropClick := v;
     boundCloseClick := boundCloseClick st; keyup_listener := keyup_listener st;
     body_overflow := body_overflow st; details := details st;
     panels := panels st; closures := closures st; pending := pending st;
     focus_trap := focus_trap st |}.
Definition set_boundCloseClick v st :=
  {| refs_details := refs_details st; drawerWrapper := drawerWrapper st;
     boundBackdropClick := boundBackdropClick st;
     boundCloseClick := v; keyup_listener := keyup_listener st;
     body_overflow := body_overflow st; details := details st;
     panels := panels st; closures := closures st; pending := pending st;
     focus_trap := focus_trap st |}.
Definition set_keyup_listener v st :=
  {| refs_details := refs_details st; drawerWrapper := drawerWrapper st;
     boundBackdropClick := boundBackdropClick st;
     boundCloseClick := boundCloseClick st; keyup_listener := v;
     body_overflow := body_overflow st; details := details st;
     panels := panels st; closures := closures st; pending := pending st;
     focus_trap := focus_trap st |}.
Definition set_body_overflow v st :=
  {| refs_details := refs_details st; drawerWrapper := drawerWrapper st;
     boundBackdropClick := boundBackdropClick st;
     boundCloseClick := boundCloseClick st; keyup_listener := keyup_listener st;
     body_overflow := v; details := details st;
     panels := panels st; closures := closures st; pending := pending st;
     focus_trap := focus_trap st |}.
Definition set_details v st :=
  {| refs_details := refs_details st; drawerWrapper := drawerWrapper st;
     boundBackdropClick := boundBackdropClick st;
     boundCloseClick := boundCloseClick st; keyup_listener := keyup_listener st;
     body_overflow := body_overflow st; details := v;
     panels := panels st; closures := closures st; pending := pending st;
     focus_trap := focus_trap st |}.
Definition set_panels v st :=
  {| refs_details := refs_details st; drawerWrapper := drawerWrapper st;
     boundBackdropClick := boundBackdropClick st;
     boundCloseClick := boundCloseClick st; keyup_listener := keyup_listener st;
     body_overflow := body_overflow st; details := details st;
     panels := v; closures := closures st; pending := pending st;
     focus_trap := focus_trap st |}.
Definition set_closures v st :=
  {| refs_details := refs_details st; drawerWrapper := drawerWrapper st;
     boundBackdropClick := boundBackdropClick st;
     boundCloseClick := boundCloseClick st; keyup_listener := keyup_listener st;
     body_overflow := body_overflow st; details := details st;
     panels := panels st; closures := v; pending := pending st;
     focus_trap := focus_trap st |}.
Definition set_pending v st :=
  {| refs_details := refs_details st; drawerWrapper := drawerWrapper st;
     boundBackdropClick := boundBackdropClick st;
     boundCloseClick := boundCloseClick st; keyup_listener := keyup_listener st;
     body_overflow := body_overflow st; details := details st;
     panels := panels st; closures := closures st; pending := v;
     focus_trap := focus_trap st |}.
Definition set_focus_trap v st :=
  {| refs_details := refs_details st; drawerWrapper := drawerWrapper st;
     boundBackdropClick := boundBackdropClick st;
     boundCloseClick := boundCloseClick st; keyup_listener := keyup_listener st;
     body_overflow := body_overflow st; details := details st;
     panels := panels st; closures := closures st; pending := pending st;
     focus_trap := v |}.

(** *** Element updates *)

Definition d_set_attrs v d :=
  {| d_attrs := v; d_classes := d_classes d;
     d_summary := d_summary d; d_children := d_children d |}.
Definition d_set_classes v d :=
  {| d_attrs := d_attrs d; d_classes := v;
     d_summary := d_summary d; d_children := d_children d |}.
Definition d_set_summary v d :=
  {| d_attrs := d_attrs d; d_classes := d_classes d;
     d_summary := v; d_children := d_children d |}.
Definition d_set_children v d :=
  {| d_attrs := d_attrs d; d_classes := d_classes d;
     d_summary := d_summary d; d_children := v |}.

Definition w_set_classes v w :=
  {| w_classes := v; w_style := w_style w;
     w_children := w_children w; w_in_body := w_in_body w |}.
Definition w_set_style v w :=
  {| w_classes := w_classes w; w_style := v;
     w_children := w_children w; w_in_body := w_in_body w |}.
Definition w_set_children v w :=
  {| w_classes := w_classes w; w_style := w_style w;
     w_children := v; w_in_body := w_in_body w |}.
Definition w_set_in_body v w :=
  {| w_classes := w_classes w; w_style := w_style w;
     w_children := w_children w; w_in_body := v |}.

Definition p_set_click v p :=
  {| p_classes := p_classes p; p_click := v;
     p_close_button := p_close_button p |}.
Definition p_set_close_button v p :=
  {| p_classes := p_classes p; p_click := p_click p;
     p_close_button := v |}.

(** [summary.setAttribute('aria-expanded', v)] on the summary of a
    details element, when it has one. *)
Definition summary_setAttribute (k v : string) (d : details_el) : details_el :=
  d_set_summary (insert k v <$> d_summary d) d.

Definition alter_details (f : details_el → details_el) (d : nat) : M state unit :=
  modify (λ st, set_details (alter f d (details st)) st).

Definition alter_wrapper (f : wrapper_el → wrapper_el) : M state unit :=
  modify (λ st, set_drawerWrapper (f <$> drawerWrapper st) st).

Definition alter_panel (f : panel_el → panel_el) (id : nat) : M state unit :=
  modify (λ st, set_panels (alter f id (panels st)) st).

(** *** Queries *)

Definition has_class (c : string) (ps : list panel_el) (id : nat) : bool :=
  match ps !! id with
  | Some p => ClassList.contains c (p_classes p)
  | None => false
  end.

(** [root.querySelector('.c')] over the panels below [root]. *)
Definition querySelector (c : string) (below : list nat) (ps : list panel_el)
  : option nat :=
  List.find (has_class c ps) below.

(** An element reference held by the script always names an element of
    the page; dereferencing any other number is a [TypeError] here. *)
Definition theDetails (d : nat) : M state details_el :=
  let* ds := gets details in
  match ds !! d with
  | Some de => ret de
  | None => throw (TypeError "no such details element")
  end.

Definition closeButton_of (drawer : nat) (ps : list panel_el)
  : option (list closure) :=
  ps !! drawer ≫= p_close_button.

(** *** Moving nodes *)

Definition without (id : nat) (l : list nat) : list nat :=
  filter (λ x, x ≠ id) l.

(** A node has one parent: inserting it elsewhere removes it from where
    it was. *)
Definition detach (id : nat) (st : state) : state :=
  set_drawerWrapper
    ((λ w, w_set_children (without id (w_children w)) w) <$> drawerWrapper st)
    (set_details
       ((λ d, d_set_children (without id (d_children d)) d) <$> details st) st).

(** [this.#drawerWrapper.appendChild(node)], the wrapper known to exist. *)
Definition wrapper_appendChild (node : option nat) : M state unit :=
  match node with
  | None => throw (TypeError "appendChild: parameter 1 is not of type 'Node'")
  | Some id =>
      modify (detach id) >>
      alter_wrapper (λ w, w_set_children (w_children w ++ [id]) w)
  end.

(** [details.appendChild(node)] *)
Definition details_appendChild (d : nat) (id : nat) : M state unit :=
  modify (detach id) >>
  alter_details (λ de, d_set_children (d_children de ++ [id]) de) d.

(** *** Listeners *)

Definition add_listener (h : closure) (l : list closure) : list closure :=
  if bool_decide (h ∈ l) then l else l ++ [h].

Definition remove_listener (h : closure) (l : list closure) : list closure :=
  filter (λ x, x ≠ h) l.

Definition new_closure : M state closure :=
  let* n := gets closures in
  modify (set_closures (S n)) >>
  ret (CloseClosure n).

(** *** Collaborators outside the component *)

(** [requestAnimationFrame(cb)]: the browser runs [cb] before the next
    paint. *)
Definition schedule (t : task) : M state unit :=
  modify (λ st, set_pending (pending st ++ [t]) st).

(** Modelled from the spec: [onAnimationEnd] of [@theme/utilities] is
    not part of the sources; the spec has it register a continuation
    that fires when the element's transition or animation completes, with
    no timeout. *)
Definition onAnimationEnd (el : anim_target) (cb : callback) : M state unit :=
  schedule (AnimationEnd el cb).

(** Modelled from the spec: [trapFocus] and [removeTrapFocus] of
    [@theme/focus] are not part of the sources; the spec has them trap
    keyboard focus within an element and release it. *)
Definition trapFocus (t : focus_target) : M state unit :=
  modify (set_focus_trap (Some t)).

Definition removeTrapFocus : M state unit :=
  modify (set_focus_trap None).

(** [drawer || details] *)
Definition drawer_or (drawer : option nat) (details : nat) : anim_target :=
  match drawer with
  | Some id => OnPanel id
  | None => OnDetails details
  end.

(** *** The component *)

Definition wrapper_cssText : gmap string string :=
  <["position" := "fixed"]> (<["top" := "0"]> (<["left" := "0"]>
  (<["width" := "0"]> (<["height" := "0"]> (<["z-index" := "9999"]>
  (<["pointer-events" := "none"]> ∅)))))).

Definition createDrawerWrapper : M state unit :=
  modify (set_drawerWrapper (Some
    {| w_classes := ["size-guide-drawer-wrapper"];
       w_style := wrapper_cssText;
       w_children := [];
       w_in_body := true |})).

(** [super.connectedCallback()] belongs to the host's [Component] base
    class and touches nothing modelled here. *)
Definition connectedCallback : M state unit :=
  modify (set_keyup_listener true) >>
  (* Create a wrapper element in body for the drawer to escape stacking contexts *)
  createDrawerWrapper.

Definition disconnectedCallback : M state unit :=
  modify (set_keyup_listener false) >>
  (* Clean up the wrapper when component is disconnected *)
  alter_wrapper (w_set_in_body false).

Definition isOpen (st : state) : bool :=
  match details st !! refs_details st with
  | Some de => bool_decide (is_Some (d_attrs de !! "open"))
  | None => false
  end.

Definition getDetailsElement (ev : option event) (st : state) : nat :=
  match ev with
  | Some {| target := ElementUnder (Some d) |} => d
  | _ => refs_details st
  end.

(** Reset an open details element to its original state. *)
Definition reset (element : nat) : M state unit :=
  alter_details (λ de, d_set_classes (ClassList.remove "menu-open" (d_classes de)) de)
                element >>
  alter_details (λ de, d_set_attrs (delete "open" (d_attrs de)) de) element >>
  alter_details (summary_setAttribute "aria-expanded" "false") element.

(** The callback [open] hands to [requestAnimationFrame]. *)
Definition frame_callback (details : nat) (drawer : option nat) : M state unit :=
  alter_details (λ de, d_set_classes (ClassList.add "menu-open" (d_classes de)) de)
                details >>
  alter_wrapper (λ w, w_set_classes (ClassList.add "menu-open" (w_classes w)) w) >>
  (* Wait for the drawer animation to complete before trapping focus *)
  onAnimationEnd (drawer_or drawer details) (TrapFocus details).

(** [() => trapFocus(this.#drawerWrapper || details)] *)
Definition trapFocus_callback (details : nat) : M state unit :=
  let* w := gets drawerWrapper in
  trapFocus (if w is Some _ then FocusWrapper else FocusDetails details).

Definition open (ev : option event) : M state unit :=
  let* details := gets (getDetailsElement ev) in
  let* de := theDetails details in
  match d_summary de with
  | None => ret tt
  | Some _ =>
      alter_details (summary_setAttribute "aria-expanded" "true") details >>
      (* mark details as open so `isOpen` reflects state *)
      alter_details (λ de, d_set_attrs (<["open" := ""]> (d_attrs de)) de) details >>
      (* Lock body scroll *)
      modify (set_body_overflow "hidden") >>
      (* Move drawer and backdrop to body wrapper to escape stacking contexts *)
      let* ps := gets panels in
      let drawer := querySelector "size-guide-drawer" (d_children de) ps in
      let backdrop := querySelector "size-guide-drawer__backdrop" (d_children de) ps in
      let* w := gets drawerWrapper in
      (match w, drawer with
       | Some _, Some dr =>
           alter_wrapper (λ w, w_set_style (<["pointer-events" := "auto"]> (w_style w)) w) >>
           wrapper_appendChild backdrop >>
           wrapper_appendChild drawer >>
           (match backdrop with
            | Some b =>
                let* h := new_closure in
                modify (set_boundBackdropClick (Some h)) >>
                alter_panel (λ p, p_set_click (add_listener h (p_click p)) p) b
            | None => ret tt
            end) >>
           let* ps := gets panels in
           (match closeButton_of dr ps with
            | Some _ =>
                let* h := new_closure in
                modify (set_boundCloseClick (Some h)) >>
                alter_panel
                  (λ p, p_set_close_button (add_listener h <$> p_close_button p) p) dr
            | None => ret tt
            end)
       | _, _ => ret tt
       end) >>
      schedule (Frame details drawer)
  end.

(** The callback [#close] hands to [onAnimationEnd]. *)
Definition closeEnd_callback (details : nat) (drawer backdrop : option nat)
  : M state unit :=
  (* Move drawer and backdrop back to details element *)
  (match drawer with
   | Some dr =>
       (* remove attached listeners *)
       let* ps := gets panels in
       let* bound := gets boundCloseClick in
       (match closeButton_of dr ps, bound with
        | Some _, Some h =>
            alter_panel
              (λ p, p_set_close_button (remove_listener h <$> p_close_button p) p) dr
        | _, _ => ret tt
        end) >>
       modify (set_boundCloseClick None) >>
       details_appendChild details dr
   | None => ret tt
   end) >>
  (match backdrop with
   | Some b =>
       let* bound := gets boundBackdropClick in
       (match bound with
        | Some h => alter_panel (λ p, p_set_click (remove_listener h (p_click p)) p) b
        | None => ret tt
        end) >>
       modify (set_boundBackdropClick None) >>
       details_appendChild details b
   | None => ret tt
   end) >>
  alter_wrapper (λ w, w_set_style (<["pointer-events" := "none"]> (w_style w)) w) >>
  reset details >>
  removeTrapFocus.

(** [#close(details)]: close the drawer with animation. *)
Definition private_close (details : nat) : M state unit :=
  let* de := theDetails details in
  alter_details (summary_setAttribute "aria-expanded" "false") details >>
  alter_details (λ de, d_set_classes (ClassList.remove "menu-open" (d_classes de)) de)
                details >>
  alter_wrapper (λ w, w_set_classes (ClassList.remove "menu-open" (w_classes w)) w) >>
  (* Unlock body scroll *)
  modify (set_body_overflow "") >>
  (* Wait for the .size-guide-drawer element's transition *)
  let* w := gets drawerWrapper in
  let* ps := gets panels in
  let drawer :=
    w ≫= λ w, querySelector "size-guide-drawer" (w_children w) ps in
  let backdrop :=
    w ≫= λ w, querySelector "size-guide-drawer__backdrop" (w_children w) ps in
  onAnimationEnd (drawer_or drawer details) (CloseEnd details drawer backdrop).

Definition close : M state unit :=
  let* d := gets refs_details in
  private_close d.

(** [#onKeyUp]: close the drawer when the Escape key is released. *)
Definition onKeyUp (ev : event) : M state unit :=
  if bool_decide (key ev ≠ "Escape") then ret tt else
  let* d := gets (getDetailsElement (Some ev)) in
  private_close d.

Definition toggle : M state unit :=
  let* o := gets isOpen in
  if o then close else open None.

(** *** The environment *)

Definition run_callback (cb : callback) : M state unit :=
  match cb with
  | TrapFocus d => trapFocus_callback d
  | CloseEnd d drawer backdrop => closeEnd_callback d drawer backdrop
  end.

Definition run_task (t : task) : M state unit :=
  match t with
  | Frame d drawer => frame_callback d drawer
  | AnimationEnd _ cb => run_callback cb
  end.

(** The [k]-th pending continuation fires. *)
Definition fire (k : nat) : M state unit :=
  let* ts := gets pending in
  match ts !! k with
  | Some t => modify (set_pending (take k ts ++ drop (S k) ts)) >> run_task t
  | None => ret tt
  end.

(** A click runs the listeners of the element in the order they were
    added; each is a [() => this.close()]. *)
Definition run_listeners (l : list closure) : M state unit :=
  foldr (λ _ rest, close >> rest) (ret tt) l.

Definition click_panel (id : nat) : M state unit :=
  let* ps := gets panels in
  run_listeners (default [] (p_click <$> ps !! id)).

Definition click_closeButton (drawer : nat) : M state unit :=
  let* ps := gets panels in
  run_listeners (default [] (closeButton_of drawer ps)).

Inductive action :=
| Connect
| Disconnect
| Open (ev : option event)
| Close
| Toggle
| KeyUp (ev : event)
| Fire (k : nat)
| ClickPanel (id : nat)
| ClickCloseButton (drawer : nat).

Definition perform (a : action) : M state unit :=
  match a with
  | Connect => connectedCallback
  | Disconnect => disconnectedCallback
  | Open ev => open ev
  | Close => close
  | Toggle => toggle
  | KeyUp ev =>
      let* registered := gets keyup_listener in
      if registered then onKeyUp ev else ret tt
  | Fire k => fire k
  | ClickPanel id => click_panel id
  | ClickCloseButton d => click_closeButton d
  end.

Definition run (acts : list action) (st : state) : state :=
  foldl (λ st a, (perform a st).1) st acts.

(** *** Observations *)

Definition summary_attr (k : string) (de : details_el) : option string :=
  d_summary de ≫= (.!! k).

(** The two ways into [#close]: [close()], and an Escape keyup whose
    target is [t]. *)
Inductive close_entry := ByClose | ByEscape (t : event_target).

Definition close_via (e : close_entry) : M state unit :=
  match e with
  | ByClose => close
  | ByEscape t => onKeyUp {| key := "Escape"; target := t |}
  end.

(** The details element [#close] is handed. *)
Definition closing_details (e : close_entry) (st : state) : nat :=
  match e with
  | ByClose => refs_details st
  | ByEscape t => getDetailsElement (Some {| key := "Escape"; target := t |}) st
  end.

(** The drawer at rest: the component is connected, its details element
    has a summary and no [open] attribute, holds the panel [drawer] and
    the backdrop [backdrop] (which is not itself a drawer panel), the
    wrapper is empty and no continuation is pending. *)
Record Closed (st : state) (de : details_el) (w : wrapper_el)
    (drawer backdrop : nat) : Prop := {
  closed_details : details st !! refs_details st = Some de;
  closed_summary : is_Some (d_summary de);
  closed_attr : d_attrs de !! "open" = None;
  closed_drawer :
    querySelector "size-guide-drawer" (d_children de) (panels st) = Some drawer;
  closed_backdrop :
    querySelector "size-guide-drawer__backdrop" (d_children de) (panels st)
    = Some backdrop;
  closed_backdrop_plain : has_class "size-guide-drawer" (panels st) backdrop = false;
  closed_wrapper : drawerWrapper st = Some w;
  closed_wrapper_empty : w_children w = [];
  closed_quiet : pending st = []
}.

(** The drawer while shown: panel and backdrop are the wrapper's
    children, in that order. *)
Definition relocated (d drawer backdrop : nat) (st : state) : Prop :=
  refs_details st = d ∧
  (∃ de, details st !! d = Some de ∧ is_Some (d_summary de)) ∧
  (∃ w, drawerWrapper st = Some w ∧ w_children w = [backdrop; drawer]) ∧
  has_class "size-guide-drawer" (panels st) backdrop = false ∧
  has_class "size-guide-drawer" (panels st) drawer = true ∧
  has_class "size-guide-drawer__backdrop" (panels st) backdrop = true.

(** What a finished cycle must leave: panel and backdrop below the
    details element and out of the wrapper, scroll unlocked, and the
    details element without [open], without [menu-open], its summary
    collapsed. *)
Definition restored (st : state) (drawer backdrop : nat) : Prop :=
  ∃ de w,
    details st !! refs_details st = Some de ∧
    drawerWrapper st = Some w ∧
    drawer ∈ d_children de ∧ backdrop ∈ d_children de ∧
    (drawer ∉ w_children w) ∧ (backdrop ∉ w_children w) ∧
    body_overflow st = "" ∧
    d_attrs de !! "open" = None ∧
    ClassList.contains "menu-open" (d_classes de) = false ∧
    summary_attr "aria-expanded" de = Some "false".

(** The two situations a cycle goes through, each with the
    continuations pending in it: the drawer shown (scroll unlocked
    already once [close] has run), and the drawer back home. *)
Definition Shown (d drawer backdrop : nat) (unlocked : bool) (ts : list task)
    (st : state) : Prop :=
  relocated d drawer backdrop st ∧
  pending st = ts ∧
  (unlocked = true → body_overflow st = "").

Definition Home (drawer backdrop : nat) (ts : list task) (st : state) : Prop :=
  restored st drawer backdrop ∧ pending st = ts.


(** The one order left out: [close()] and its completion both come
    before the frame callback of [open]. *)
Definition overlapped_cycle : list action :=
  [Open None; Close; Fire 1; Fire 0; Fire 0].

(** *** Sample page *)

(** One details element with a summary, a backdrop and a drawer panel
    with a close button; the component is connected. *)
Definition sample_details : details_el :=
  {| d_attrs := ∅; d_classes := [];
     d_summary := Some (<["aria-expanded" := "false"]> ∅);
     d_children := [0; 1]%nat |}.

Definition sample_page : state :=
  {| refs_details := 0; drawerWrapper := None;
     boundBackdropClick := None; boundCloseClick := None;
     keyup_listener := false; body_overflow := "";
     details := [ sample_details ];
     panels :=
       [ {| p_classes := ["size-guide-drawer__backdrop"]; p_click := [];
            p_close_button := None |};
         {| p_classes := ["size-guide-drawer"]; p_click := [];
            p_close_button := Some [] |} ];
     closures := 0; pending := []; focus_trap := None |}.

Definition sample : state := run [Connect] sample_page.

Definition sample_wrapper : wrapper_el :=
  {| w_classes := ["size-guide-drawer-wrapper"]; w_style := wrapper_cssText;
     w_children := []; w_in_body := true |}.

(** The same page whose details element has no summary. *)
Definition sample_no_summary : state :=
  set_details
    [ {| d_attrs := ∅; d_classes := []; d_summary := None;
         d_children := [0; 1]%nat |} ]
    sample.

(** *** The attached handlers *)

(** The two handlers [open] attached, as they sit while the drawer is
    shown: each bound field holds the closure that is the one listener of
    its element. *)
Definition wired (n : nat) (drawer backdrop : nat) (st : state) : Prop :=
  boundBackdropClick st = Some (CloseClosure n) ∧
  boundCloseClick st = Some (CloseClosure (S n)) ∧
  p_click <$> panels st !! backdrop = Some [CloseClosure n] ∧
  closeButton_of drawer (panels st) = Some [CloseClosure (S n)].

(** No handler of the component is attached or remembered. *)
Definition unwired (drawer backdrop : nat) (st : state) : Prop :=
  boundBackdropClick st = None ∧
  boundCloseClick st = None ∧
  p_click <$> panels st !! backdrop = Some [] ∧
  closeButton_of drawer (panels st) = Some [].

(** The sample page without its backdrop element. *)
Definition sample_no_backdrop : state :=
  set_panels
    [ {| p_classes := ["size-guide-drawer__header"]; p_click := [];
         p_close_button := None |};
      {| p_classes := ["size-guide-drawer"]; p_click := [];
         p_close_button := Some [] |} ]
    sample.

End Drawer.

(** * Properties *)

Section Preserves.
Context {S X : Type} (f : S → X).

Lemma preserves_ret {A} (a : A) : preserves f (ret a).
Proof. done. Qed.

Lemma preserves_throw {A} e : preserves f (@throw S A e).
Proof. done. Qed.

Lemma preserves_gets {A} (h : S → A) : preserves f (gets h).
Proof. done. Qed.

Lemma preserves_modify (h : S → S) :
  (∀ s, f (h s) = f s) → preserves f (modify h).
Proof. intros H s. apply H. Qed.

Lemma preserves_bind {A B} (m : M S A) (k : A → M S B) :
  preserves f m → (∀ a, preserves f (k a)) → preserves f (bind m k).
Proof.
  intros Hm Hk s. unfold bind.
  specialize (Hm s). destruct (m s) as [s' [a|e]]; simpl in *.
  - by rewrite Hk.
  - done.
Qed.
End Preserves.

Section Maintains.
Context {S : Type} (P : S → Prop).

Lemma maintains_ret {A} (a : A) : maintains P (ret a).
Proof. by intros s. Qed.

Lemma maintains_throw {A} e : maintains P (@throw S A e).
Proof. by intros s. Qed.

Lemma maintains_gets {A} (h : S → A) : maintains P (gets h).
Proof. by intros s. Qed.

Lemma maintains_modify (h : S → S) :
  (∀ s, P s → P (h s)) → maintains P (modify h).
Proof. intros H s. apply H. Qed.

Lemma maintains_bind {A B} (m : M S A) (k : A → M S B) :
  maintains P m → (∀ a, maintains P (k a)) → maintains P (bind m k).
Proof.
  intros Hm Hk s Hs. unfold bind.
  specialize (Hm s Hs). destruct (m s) as [s' [a|e]]; simpl in *.
  - by apply Hk.
  - done.
Qed.
End Maintains.

Lemma preserves_maintains {S A X} (f : S → X) (m : M S A) (Q : X → Prop) :
  preserves f m → maintains (λ s, Q (f s)) m.
Proof. intros H s Hs. by rewrite H. Qed.

Ltac preserve_step :=
  lazymatch goal with
  | |- preserves _ (ret _) => apply preserves_ret
  | |- preserves _ (throw _) => apply preserves_throw
  | |- preserves _ (gets _) => apply preserves_gets
  | |- preserves _ (bind _ _) => apply preserves_bind; [|intros ?; cbv beta]
  | |- preserves _ (modify _) => apply preserves_modify; intros ?; try reflexivity
  | |- preserves _ (match ?x with _ => _ end) => destruct x
  end.
Ltac preserve := repeat preserve_step.

Lemma Qlt_bool_iff (a b : Q) : Qlt_bool a b = true ↔ (a < b)%Q.
Proof.
  unfold Qlt_bool. rewrite negb_true_iff. split.
  - intros H. apply Qnot_le_lt. intros Hle.
    apply Qle_bool_iff in Hle. congruence.
  - intros H. destruct (Qle_bool b a) eqn:E; [|done].
    apply Qle_bool_iff in E. exfalso. by apply (Qlt_not_le a b).
Qed.

Lemma Qlt_bool_false_iff (a b : Q) : Qlt_bool a b = false ↔ (b <= a)%Q.
Proof. unfold Qlt_bool. rewrite negb_false_iff. apply Qle_bool_iff. Qed.

Lemma length_alter_item {A} (f : A → A) i (l : list A) :
  length (alter_item f i l) = length l.
Proof. unfold alter_item. destruct (i <? 0); [done|]. apply length_alter. Qed.

Module GalleryFacts.
Import Gallery.

(** *** Frame lemmas: what each method leaves alone *)
Section Frame.
Context {X : Type} (f : gallery → X).
Hypothesis f_wrapper : ∀ v g, f (set_thumbnailWrapper v g) = f g.

Lemma preserves_theWrapper : preserves f theWrapper.
Proof. unfold theWrapper. preserve. Qed.

Lemma preserves_wrapperScrollBy q : preserves f (wrapperScrollBy q).
Proof.
  unfold wrapperScrollBy. preserve; [apply preserves_theWrapper | apply f_wrapper].
Qed.

Lemma preserves_ensureThumbnailVisible i : preserves f (ensureThumbnailVisible i).
Proof.
  unfold ensureThumbnailVisible. preserve;
    first [apply preserves_theWrapper | apply preserves_wrapperScrollBy].
Qed.

Lemma preserves_scrollThumbnails d : preserves f (scrollThumbnails d).
Proof.
  unfold scrollThumbnails. preserve;
    first [apply preserves_theWrapper | apply preserves_wrapperScrollBy].
Qed.

Hypothesis f_nav : ∀ p n g, f (set_navButtons p n g) = f g.

Lemma preserves_updateNavigationState : preserves f updateNavigationState.
Proof.
  unfold updateNavigationState. preserve;
    first [apply preserves_theWrapper | apply f_nav].
Qed.

Hypothesis f_carousel : ∀ v g, f (set_carouselContainer v g) = f g.

Lemma preserves_setThumbnailContainerAttributes :
  preserves f setThumbnailContainerAttributes.
Proof. unfold setThumbnailContainerAttributes. preserve. apply f_carousel. Qed.

Hypothesis f_listeners : ∀ v g, f (set_listeners v g) = f g.

Lemma preserves_addEventListener t h : preserves f (addEventListener t h).
Proof. unfold addEventListener. preserve. apply f_listeners. Qed.

Lemma preserves_forEach_thumb items k : preserves f (forEach_thumb items k).
Proof.
  revert k. induction items as [|it rest IH]; intros k; simpl.
  - preserve.
  - preserve; [apply preserves_addEventListener | apply IH].
Qed.

Lemma preserves_init : preserves f init.
Proof.
  unfold init, setupThumbnailNavigation, setupMainImageSwitching,
    setupScrollListener.
  preserve;
    first [ apply preserves_addEventListener | apply preserves_forEach_thumb
          | apply preserves_updateNavigationState
          | apply preserves_setThumbnailContainerAttributes ].
Qed.
End Frame.

Lemma preserves_updateThumbnailsPerView {X} (f : gallery → X) :
  (∀ v g, f (set_thumbnailsPerView v g) = f g) →
  preserves f updateThumbnailsPerView.
Proof.
  intros Hf. unfold updateThumbnailsPerView, theWrapper. preserve. apply Hf.
Qed.

(** *** The navigation buttons *)

(** C3: with both buttons and the scroll container present,
    [updateNavigationState] returns with "prev" disabled exactly when
    scrollLeft <= 0 and "next" disabled exactly when
    scrollLeft >= scrollWidth - clientWidth - 1; nothing else changes. *)
Theorem updateNavigationState_disabled (g : gallery) (p n : nav_button) (w : scroller) :
  prevBtn g = Some p → nextBtn g = Some n → thumbnailWrapper g = Some w →
  ∃ p' n',
    updateNavigationState g = (set_navButtons (Some p') (Some n') g, Normal tt) ∧
    (disabled p' = true ↔ (scrollLeft w <= 0)%Q) ∧
    (disabled n' = true ↔
       (inject_Z (scrollWidth w - clientWidth w - 1) <= scrollLeft w)%Q).
Proof.
  intros Hp Hn Hw.
  unfold updateNavigationState, theWrapper, bind, gets, modify, ret. simpl.
  rewrite Hp, Hn, Hw. simpl.
  eexists _, _. split; [reflexivity|]. simpl.
  split; apply Qle_bool_iff.
Qed.

Lemma updateNavigationState_disabled_sample :
  prevBtn sample = Some {| disabled := true |} ∧
  nextBtn sample = Some {| disabled := false |} ∧
  thumbnailWrapper sample = Some sample_wrapper ∧
  ∃ p' n',
    updateNavigationState sample
      = (set_navButtons (Some p') (Some n') sample, Normal tt) ∧
    (disabled p' = true ↔ (scrollLeft sample_wrapper <= 0)%Q) ∧
    (disabled n' = true ↔
       (inject_Z (scrollWidth sample_wrapper - clientWidth sample_wrapper - 1)
          <= scrollLeft sample_wrapper)%Q).
Proof.
  split; [reflexivity|]. split; [reflexivity|]. split; [reflexivity|].
  apply (updateNavigationState_disabled sample
           {| disabled := true |} {| disabled := false |} sample_wrapper);
    reflexivity.
Defined.

(** *** Keeping the active thumbnail in view *)

Lemma ensureThumbnailVisible_unfold (g : gallery) index th w :
  item (thumbnailItems g) index = Some th →
  thumbnailWrapper g = Some w →
  ensureThumbnailVisible index g =
    if Qlt_bool (r_left (th_rect th)) (r_left (sc_rect w)) then
      (set_thumbnailWrapper
         (Some (scrollBy (r_left (th_rect th) - r_left (sc_rect w) - 10) w)) g,
       Normal tt)
    else if Qlt_bool (r_right (sc_rect w)) (r_right (th_rect th)) then
      (set_thumbnailWrapper
         (Some (scrollBy (r_right (th_rect th) - r_right (sc_rect w) + 10) w)) g,
       Normal tt)
    else (g, Normal tt).
Proof.
  intros Hth Hw.
  unfold ensureThumbnailVisible, wrapperScrollBy, theWrapper, bind, gets, modify, ret.
  simpl. rewrite Hth, Hw. simpl.
  destruct (Qlt_bool _ _); simpl.
  - by rewrite Hw.
  - destruct (Qlt_bool _ _); simpl; [by rewrite Hw | done].
Qed.

(** C5, amended: for a thumbnail that exists, [ensureThumbnailVisible]
    returns after scrolling by (thumbnail.left - container.left - 10)
    when the left edge is before the container's, by
    (thumbnail.right - container.right + 10) when the left edge is not
    before it and the right edge is past the container's, and not at all
    when the thumbnail lies within the container; it never issues more
    than one scroll. *)
Theorem ensureThumbnailVisible_scroll (g : gallery) (index : Z)
    (th : thumbnail) (w : scroller) :
  item (thumbnailItems g) index = Some th →
  thumbnailWrapper g = Some w →
  let t := th_rect th in
  let c := sc_rect w in
  ∃ g', ensureThumbnailVisible index g = (g', Normal tt) ∧
    ((r_left t < r_left c)%Q →
       g' = set_thumbnailWrapper
              (Some (scrollBy (r_left t - r_left c - 10) w)) g) ∧
    ((r_left c <= r_left t)%Q → (r_right c < r_right t)%Q →
       g' = set_thumbnailWrapper
              (Some (scrollBy (r_right t - r_right c + 10) w)) g) ∧
    ((r_left c <= r_left t)%Q → (r_right t <= r_right c)%Q → g' = g) ∧
    (length (requests g') ≤ S (length (requests g)))%nat.
Proof.
  intros Hth Hw t c.
  rewrite (ensureThumbnailVisible_unfold g index th w Hth Hw).
  fold t c.
  destruct (Qlt_bool (r_left t) (r_left c)) eqn:El.
  - apply Qlt_bool_iff in El. eexists. split; [reflexivity|].
    repeat split.
    + intros Hle. exfalso. by apply (Qlt_not_le _ _ El).
    + intros Hle. exfalso. by apply (Qlt_not_le _ _ El).
    + unfold requests. simpl. rewrite Hw, length_app. simpl. lia.
  - apply Qlt_bool_false_iff in El.
    destruct (Qlt_bool (r_right c) (r_right t)) eqn:Er.
    + apply Qlt_bool_iff in Er. eexists. split; [reflexivity|].
      repeat split.
      * intros Hlt. exfalso. by apply (Qlt_not_le _ _ Hlt).
      * intros _ Hle. exfalso. by apply (Qlt_not_le _ _ Er).
      * unfold requests. simpl. rewrite Hw, length_app. simpl. lia.
    + apply Qlt_bool_false_iff in Er. eexists. split; [reflexivity|].
      repeat split.
      * intros Hlt. exfalso. by apply (Qlt_not_le _ _ Hlt).
      * intros _ Hlt. exfalso. by apply (Qlt_not_le _ _ Hlt).
      * lia.
Qed.
Lemma ensureThumbnailVisible_scroll_sample :
  item (thumbnailItems sample) 3 = Some (sample_thumb 330 430) ∧
  thumbnailWrapper sample = Some sample_wrapper ∧
  requests (ensureThumbnailVisible 3 sample).1 = [(430 - 320 + 10)%Q].
Proof.
  split; [reflexivity|]. split; [reflexivity|].
  destruct (ensureThumbnailVisible_scroll sample 3 (sample_thumb 330 430)
              sample_wrapper eq_refl eq_refl) as (g' & Hrun & _ & Hright & _).
  rewrite Hrun. simpl. rewrite Hright; [reflexivity | discriminate | reflexivity].
Defined.

(** C5 as stated fails: a thumbnail that sticks out on both sides has
    its right edge past the container's, yet the one scroll issued is the
    leftward one. *)
Lemma ensureThumbnailVisible_wide_thumbnail :
  item (thumbnailItems sample_narrow) 0 = Some (sample_thumb (-20) 80) ∧
  thumbnailWrapper sample_narrow = Some narrow_wrapper ∧
  (r_right (sc_rect narrow_wrapper) < r_right (th_rect (sample_thumb (-20) 80)))%Q ∧
  requests (ensureThumbnailVisible 0 sample_narrow).1 = [(-20 - 0 - 10)%Q] ∧
  requests (ensureThumbnailVisible 0 sample_narrow).1 ≠ [(80 - 60 + 10)%Q].
Proof.
  split; [reflexivity|]. split; [reflexivity|]. split; [reflexivity|].
  split; [reflexivity|]. discriminate.
Qed.

(** *** Activating the current index *)

(** C7: [switchMainImage(currentIndex)] returns at once: the whole
    gallery state (thumbnails, main display, scroll requests, fields) is
    what it was. *)
Theorem switchMainImage_current_is_noop (g : gallery) :
  switchMainImage (currentIndex g) g = (g, Normal tt).
Proof.
  unfold switchMainImage, bind, gets. simpl.
  by rewrite bool_decide_eq_true_2.
Qed.

(** *** The constructor's CSS custom properties *)


Lemma css_int_reads (c : container) (name : string) (d : Z) :
  d ≠ 0 → reads_css_int c name d (css_int c name d).
Proof.
  intros Hd. unfold reads_css_int, css_int, js_or, getPropertyValue.
  repeat split.
  - intros ->. simpl. destruct (d =? 0) eqn:E; [lia|done].
  - intros ->. simpl. destruct (d =? 0) eqn:E; [lia|done].
  - intros ->. simpl. destruct (d =? 0) eqn:E; [lia|done].
  - intros z Hz ->. simpl. destruct (z =? 0) eqn:E; [lia|done].
Qed.

(** C9, amended: the constructor leaves in [thumbnailsPerView],
    [thumbnailSize] and [thumbnailGap] the integer [parseInt] reads from
    the custom property when that is a non-zero number, and the default
    3, 100, 10 when the property is absent, has no leading integer, or
    reads as zero. *)
Theorem constructor_css_int (c : container) :
  reads_css_int c "--thumbnails-per-view" 3
    (thumbnailsPerView (constructor c).1) ∧
  reads_css_int c "--thumbnail-size" 100 (thumbnailSize (constructor c).1) ∧
  reads_css_int c "--thumbnail-gap" 10 (thumbnailGap (constructor c).1).
Proof.
  unfold constructor.
  rewrite (preserves_init thumbnailsPerView), (preserves_init thumbnailSize),
    (preserves_init thumbnailGap) by done.
  simpl. repeat split; by apply css_int_reads.
Qed.

(** C9 as stated fails: a gap property that is present and numeric,
    ["0"], still gives the default. *)
Lemma constructor_zero_gap_defaults :
  computed_style sample_container !! "--thumbnail-gap" = Some "0" ∧
  parseInt (getPropertyValue sample_container "--thumbnail-gap") = JNum 0 ∧
  thumbnailGap (constructor sample_container).1 = JNum 10.
Proof. repeat split. Qed.
(** *** The current index *)

Lemma switchMainImage_same (g : gallery) (index : Z) :
  index = currentIndex g → switchMainImage index g = (g, Normal tt).
Proof.
  intros ->. unfold switchMainImage, bind, gets. simpl.
  by rewrite bool_decide_eq_true_2.
Qed.

(** The body of [switchMainImage] for an index other than the current
    one, with its sequencing spelled out. *)
Lemma switchMainImage_unfold (index : Z) (g : gallery) :
  index ≠ currentIndex g →
  switchMainImage index g =
    let g1 :=
      set_thumbnailItems
        (alter_item (th_add "active") index
           (alter_item (th_remove "active") (currentIndex g) (thumbnailItems g))) g in
    match hiddenMedia g with
    | None => (g1, Throw (TypeError "this.hiddenMedia is null"))
    | Some pool =>
        match query_media_index pool (pretty index), mainImageContainer g with
        | Some el, Some main =>
            match main_content main with
            | None => (g1, Throw (TypeError "mainImageContent is null"))
            | Some content =>
                ensureThumbnailVisible index
                  (set_currentIndex index
                     (set_mainImageContainer
                        (Some {| main_content :=
                                   Some (swap_content index el content) |}) g1))
            end
        | _, _ => ensureThumbnailVisible index (set_currentIndex index g1)
        end
    end.
Proof.
  intros Hne. unfold switchMainImage, bind, gets, modify, ret, throw. simpl.
  rewrite bool_decide_eq_false_2 by done.
  destruct (hiddenMedia g) as [pool|]; [|done].
  destruct (query_media_index pool (pretty index)); simpl.
  - destruct (mainImageContainer g) as [main|]; [|done].
    by destruct (main_content main).
  - by destruct (mainImageContainer g).
Qed.

Lemma switchMainImage_currentIndex (index : Z) (g : gallery) :
  currentIndex (switchMainImage index g).1 = index ∨
  currentIndex (switchMainImage index g).1 = currentIndex g.
Proof.
  destruct (decide (index = currentIndex g)) as [->|Hne].
  { right. by rewrite (switchMainImage_same g). }
  rewrite switchMainImage_unfold by done. cbv zeta.
  destruct (hiddenMedia g) as [pool|]; [|by right].
  destruct (query_media_index pool (pretty index)),
    (mainImageContainer g) as [[[content|]]|]; simpl;
    try (by right);
    left; by rewrite (preserves_ensureThumbnailVisible currentIndex).
Qed.

Lemma preserves_switchMainImage {X} (f : gallery → X) (index : Z) :
  (∀ v g, f (set_thumbnailWrapper v g) = f g) →
  (∀ v g, f (set_thumbnailItems v g) = f g) →
  (∀ v g, f (set_mainImageContainer v g) = f g) →
  (∀ v g, f (set_currentIndex v g) = f g) →
  preserves f (switchMainImage index).
Proof.
  intros Hw Hi Hm Hc. unfold switchMainImage. preserve;
    first [ apply Hi | apply Hm | apply Hc
          | by apply preserves_ensureThumbnailVisible ].
Qed.

Lemma length_switchMainImage (index : Z) (g : gallery) :
  length (thumbnailItems (switchMainImage index g).1) = length (thumbnailItems g).
Proof.
  destruct (decide (index = currentIndex g)) as [->|Hne].
  { by rewrite (switchMainImage_same g). }
  rewrite switchMainImage_unfold by done. cbv zeta.
  assert (Hlen : ∀ g', length (thumbnailItems g') = length (thumbnailItems g) →
            length (thumbnailItems (ensureThumbnailVisible index g').1)
            = length (thumbnailItems g)).
  { intros g' <-. by apply (preserves_ensureThumbnailVisible (λ g, length (thumbnailItems g))). }
  destruct (hiddenMedia g) as [pool|]; simpl.
  2: { by rewrite !length_alter_item. }
  destruct (query_media_index pool (pretty index)),
    (mainImageContainer g) as [[[content|]]|]; simpl;
    first [ apply Hlen; simpl; by rewrite !length_alter_item
          | by rewrite !length_alter_item ].
Qed.

Lemma invoke_consistent (n : nat) (k : call) (g : gallery) :
  consistent n g → call_in_range g k → consistent n (invoke k g).1.
Proof.
  intros (Hlen & Hcur & Hls) Hk. unfold consistent.
  destruct k as [index|index|d| | |]; simpl in *.
  - rewrite length_switchMainImage.
    rewrite (preserves_switchMainImage listeners) by done.
    repeat split; try done;
      destruct (switchMainImage_currentIndex index g) as [-> | ->];
      unfold in_range in Hk; lia.
  - rewrite (preserves_ensureThumbnailVisible (λ g, length (thumbnailItems g))),
      (preserves_ensureThumbnailVisible currentIndex),
      (preserves_ensureThumbnailVisible listeners) by done. done.
  - rewrite (preserves_scrollThumbnails (λ g, length (thumbnailItems g))),
      (preserves_scrollThumbnails currentIndex),
      (preserves_scrollThumbnails listeners) by done. done.
  - rewrite (preserves_updateNavigationState (λ g, length (thumbnailItems g))),
      (preserves_updateNavigationState currentIndex),
      (preserves_updateNavigationState listeners) by done. done.
  - rewrite (preserves_setThumbnailContainerAttributes (λ g, length (thumbnailItems g))),
      (preserves_setThumbnailContainerAttributes currentIndex),
      (preserves_setThumbnailContainerAttributes listeners) by done. done.
  - rewrite (preserves_updateThumbnailsPerView (λ g, length (thumbnailItems g))),
      (preserves_updateThumbnailsPerView currentIndex),
      (preserves_updateThumbnailsPerView listeners) by done. done.
Qed.
Lemma run_handler_consistent (n : nat) (h : handler) (g : gallery) :
  consistent n g → handler_in_range n h → consistent n (run_handler h g).1.
Proof.
  intros Hg Hh. destruct h as [d|index| |]; simpl.
  - by apply (invoke_consistent n (CallScrollThumbnails d)).
  - apply (invoke_consistent n (CallSwitchMainImage index)); [done|].
    destruct Hg as (Hlen & _). simpl. unfold in_range. by rewrite Hlen.
  - by apply (invoke_consistent n CallUpdateNavigationState).
  - unfold bind.
    pose proof (invoke_consistent n CallUpdateThumbnailsPerView g Hg I) as H1.
    simpl in H1. destruct (updateThumbnailsPerView g) as [g1 [[]|e]]; simpl in *.
    + by apply (invoke_consistent n CallUpdateNavigationState).
    + done.
Qed.

Lemma foldl_handlers_consistent (n : nat) (t : target)
    (l : list (target * handler)) (g : gallery) :
  consistent n g → Forall (λ th, handler_in_range n th.2) l →
  consistent n
    (foldl (λ g '(t', h), if bool_decide (t' = t) then (run_handler h g).1 else g)
           g l).
Proof.
  revert g. induction l as [|[t' h] l IH]; intros g Hg Hl; simpl; [done|].
  inversion Hl as [|? ? Hh Hl']; subst. apply IH; [|done].
  destruct (bool_decide (t' = t)); [|done].
  by apply run_handler_consistent.
Qed.

Lemma dispatch_consistent (n : nat) (t : target) (g : gallery) :
  consistent n g → consistent n (dispatch t g).
Proof.
  intros Hg. unfold dispatch. apply foldl_handlers_consistent; [done|apply Hg].
Qed.

Lemma addEventListener_listeners (n : nat) t h :
  handler_in_range n h →
  maintains (λ g, length (thumbnailItems g) = n ∧
                  Forall (λ th, handler_in_range n th.2) (listeners g))
            (addEventListener t h).
Proof.
  intros Hh g [Hlen Hls]. simpl. split; [done|].
  apply Forall_app. split; [done|]. by constructor.
Qed.

Lemma forEach_thumb_listeners (n : nat) items (k : nat) :
  (k + length items ≤ n)%nat →
  maintains (λ g, length (thumbnailItems g) = n ∧
                  Forall (λ th, handler_in_range n th.2) (listeners g))
            (forEach_thumb items k).
Proof.
  revert k. induction items as [|it rest IH]; intros k Hk; simpl in *.
  - apply maintains_ret.
  - apply maintains_bind.
    + destruct (th_button it); [|apply maintains_ret].
      apply addEventListener_listeners. simpl. lia.
    + intros _. apply IH. lia.
Qed.

Lemma setupMainImageSwitching_listeners (n : nat) :
  maintains (λ g, length (thumbnailItems g) = n ∧
                  Forall (λ th, handler_in_range n th.2) (listeners g))
            setupMainImageSwitching.
Proof.
  intros g [Hlen Hls]. unfold setupMainImageSwitching, bind, gets. simpl.
  apply forEach_thumb_listeners; [lia|done].
Qed.

Lemma init_listeners (n : nat) :
  maintains (λ g, length (thumbnailItems g) = n ∧
                  Forall (λ th, handler_in_range n th.2) (listeners g))
            init.
Proof.
  unfold init, setupThumbnailNavigation, setupScrollListener.
  repeat lazymatch goal with
    | |- maintains _ (bind _ _) => apply maintains_bind; [|intros ?; cbv beta]
    | |- maintains _ (gets _) => apply maintains_gets
    | |- maintains _ (ret _) => apply maintains_ret
    | |- maintains _ (addEventListener _ _) => by apply addEventListener_listeners
    | |- maintains _ setupMainImageSwitching =>
        apply setupMainImageSwitching_listeners
    | |- maintains _ (match ?x with _ => _ end) => destruct x
    | |- maintains _ updateNavigationState =>
        apply (preserves_maintains
                 (λ g, (length (thumbnailItems g), listeners g)) _
                 (λ x, x.1 = n ∧ Forall (λ th, handler_in_range n th.2) x.2));
        by apply preserves_updateNavigationState
    | |- maintains _ setThumbnailContainerAttributes =>
        apply (preserves_maintains
                 (λ g, (length (thumbnailItems g), listeners g)) _
                 (λ x, x.1 = n ∧ Forall (λ th, handler_in_range n th.2) x.2));
        by apply preserves_setThumbnailContainerAttributes
    end.
Qed.

Lemma constructor_consistent (c : container) :
  q_thumbnail_items c ≠ [] →
  consistent (length (q_thumbnail_items c)) (constructor c).1.
Proof.
  intros Hne. unfold constructor.
  match goal with |- consistent _ (init ?g0).1 => set (g := g0) end.
  destruct (init_listeners (length (q_thumbnail_items c)) g) as [Hlen Hls].
  { split; [done|]. constructor. }
  repeat split; try done.
  - by rewrite (preserves_init currentIndex).
  - rewrite (preserves_init currentIndex) by done. simpl.
    destruct (q_thumbnail_items c); [done|]. simpl. lia.
Qed.

(** C6, amended: a controller built over at least one thumbnail keeps
    [currentIndex] a valid index into [thumbnailItems] through every
    event delivered to its listeners and every method call whose index
    argument names a thumbnail. *)
Theorem currentIndex_stays_valid (c : container) (g : gallery) :
  q_thumbnail_items c ≠ [] → reachable c g → valid_index g.
Proof.
  intros Hne Hr.
  assert (Hc : consistent (length (q_thumbnail_items c)) g).
  { induction Hr as [|g t _ IH|g k _ IH Hk].
    - by apply constructor_consistent.
    - by apply dispatch_consistent.
    - by apply invoke_consistent. }
  destruct Hc as (Hlen & Hcur & _).
  unfold valid_index, in_range. by rewrite Hlen.
Qed.

Lemma currentIndex_stays_valid_sample :
  q_thumbnail_items sample_container ≠ [] ∧
  reachable sample_container
    (invoke (CallSwitchMainImage 1) (dispatch (ThumbBtn 3) sample)).1 ∧
  valid_index (invoke (CallSwitchMainImage 1) (dispatch (ThumbBtn 3) sample)).1.
Proof.
  assert (Hr : reachable sample_container
            (invoke (CallSwitchMainImage 1) (dispatch (ThumbBtn 3) sample)).1).
  { apply reach_call.
    - apply reach_event, reach_constructed.
    - simpl. unfold in_range. vm_compute. split; discriminate || reflexivity. }
  split; [discriminate|]. split; [exact Hr|].
  apply (currentIndex_stays_valid sample_container); [discriminate | exact Hr].
Defined.

(** C6 as stated fails: [switchMainImage] stores any argument. *)
Lemma switchMainImage_out_of_range :
  valid_index sample ∧
  currentIndex (switchMainImage 7 sample).1 = 7 ∧
  ¬ valid_index (switchMainImage 7 sample).1.
Proof.
  split; [by vm_compute|]. split; [reflexivity|].
  unfold valid_index, in_range. vm_compute. intros [_ H]. discriminate.
Qed.
(** *** Switching without a place to put the image *)




(** The unguarded dereference: when [.main-image-container] holds no
    [.product-media-container] and the pool has a node for the index,
    [switchMainImage] throws after moving the active marker and before
    storing the index. *)
Lemma switchMainImage_without_container_throws :
  switchMainImage 1 sample_no_content
  = (set_thumbnailItems
       (alter_item (th_add "active") 1
          (alter_item (th_remove "active") 0 (thumbnailItems sample_no_content)))
       sample_no_content,
     Throw (TypeError "mainImageContent is null")).
Proof. vm_compute. reflexivity. Qed.
End GalleryFacts.

Module DrawerFacts.
Import Drawer.

Lemma contains_remove (c : string) (l : list string) :
  ClassList.contains c (ClassList.remove c l) = false.
Proof.
  unfold ClassList.contains, ClassList.remove.
  apply bool_decide_eq_false_2. rewrite list_elem_of_filter. tauto.
Qed.

(** C8: when the details element [open] resolves has no summary,
    [open] returns normally and the state is untouched: no attribute,
    no scroll lock, no relocation, no listener, nothing scheduled. *)
Theorem open_without_summary (st : state) (ev : option event) (de : details_el) :
  details st !! getDetailsElement ev st = Some de →
  d_summary de = None →
  open ev st = (st, Normal tt).
Proof.
  intros Hde Hsum. unfold open, theDetails, bind, gets, ret. simpl.
  rewrite Hde. simpl. by rewrite Hsum.
Qed.

Lemma open_without_summary_sample :
  details sample_no_summary !! getDetailsElement None sample_no_summary
    = Some {| d_attrs := ∅; d_classes := []; d_summary := None;
              d_children := [0; 1]%nat |} ∧
  open None sample_no_summary = (sample_no_summary, Normal tt).
Proof.
  split; [reflexivity|].
  by apply (open_without_summary sample_no_summary None
              {| d_attrs := ∅; d_classes := []; d_summary := None;
                 d_children := [0; 1]%nat |}).
Defined.

Lemma private_close_unfold (d : nat) (st : state) (de : details_el) :
  details st !! d = Some de →
  private_close d st =
    let ds :=
      alter (λ de, d_set_classes (ClassList.remove "menu-open" (d_classes de)) de) d
        (alter (summary_setAttribute "aria-expanded" "false") d (details st)) in
    let w := (λ w, w_set_classes (ClassList.remove "menu-open" (w_classes w)) w)
               <$> drawerWrapper st in
    let drawer := w ≫= λ w, querySelector "size-guide-drawer" (w_children w) (panels st) in
    let backdrop :=
      w ≫= λ w, querySelector "size-guide-drawer__backdrop" (w_children w) (panels st) in
    (set_pending
       (pending st ++ [AnimationEnd (drawer_or drawer d) (CloseEnd d drawer backdrop)])
       (set_body_overflow ""
          (set_drawerWrapper w (set_details ds st))),
     Normal tt).
Proof.
  intros Hde. unfold private_close, theDetails, bind, gets, ret. simpl.
  rewrite Hde. reflexivity.
Qed.
Lemma close_via_private (e : close_entry) (st : state) :
  close_via e st = private_close (closing_details e st) st.
Proof. by destruct e. Qed.

(** C10: [close()] and the Escape path run [#close] whatever the state
    of the [open] attribute: the call returns with the body's overflow
    emptied, the summary (when there is one) collapsed, [menu-open] off
    the details element and off the wrapper, and one more continuation
    waiting for the animation to end. *)
Theorem close_is_unconditional (st : state) (e : close_entry) (de : details_el) :
  details st !! closing_details e st = Some de →
  ∃ st' de' drawer backdrop,
    close_via e st = (st', Normal tt) ∧
    body_overflow st' = "" ∧
    details st' !! closing_details e st = Some de' ∧
    (is_Some (d_summary de) → summary_attr "aria-expanded" de' = Some "false") ∧
    ClassList.contains "menu-open" (d_classes de') = false ∧
    (∀ w', drawerWrapper st' = Some w' →
           ClassList.contains "menu-open" (w_classes w') = false) ∧
    pending st' =
      (pending st ++
       [AnimationEnd (drawer_or drawer (closing_details e st))
          (CloseEnd (closing_details e st) drawer backdrop)])%list.
Proof.
  intros Hde. rewrite close_via_private.
  rewrite (private_close_unfold _ st de Hde). cbv zeta.
  eexists _, _, _, _. split; [reflexivity|]. simpl.
  split; [done|]. split.
  { rewrite !list_lookup_alter_eq, Hde. reflexivity. }
  simpl. split.
  { intros [sa Hsa]. unfold summary_attr. simpl. rewrite Hsa. simpl.
    apply lookup_insert_eq. }
  split; [apply contains_remove|]. split; [|done].
  intros w' Hw'. destruct (drawerWrapper st) as [w|]; [|done].
  simpl in Hw'. injection Hw' as <-. simpl. apply contains_remove.
Qed.

Lemma close_is_unconditional_sample :
  isOpen sample = false ∧
  details sample !! closing_details ByClose sample = Some sample_details ∧
  body_overflow (close_via ByClose sample).1 = "" ∧
  length (pending (close_via ByClose sample).1) = 1%nat.
Proof.
  split; [reflexivity|]. split; [reflexivity|].
  destruct (close_is_unconditional sample ByClose sample_details eq_refl)
    as (st' & de' & drawer & backdrop & Hrun & Hbody & _ & _ & _ & _ & Hpending).
  rewrite Hrun. simpl. split; [exact Hbody|]. by rewrite Hpending.
Defined.
(** *** Queries after an update *)

Lemma has_class_alter (c : string) (f : panel_el → panel_el) (i : nat)
    (ps : list panel_el) (id : nat) :
  (∀ p, p_classes (f p) = p_classes p) →
  has_class c (alter f i ps) id = has_class c ps id.
Proof.
  intros Hf. unfold has_class. destruct (decide (i = id)) as [->|Hne].
  - rewrite list_lookup_alter_eq. destruct (ps !! id); simpl; [by rewrite Hf|done].
  - by rewrite list_lookup_alter_ne.
Qed.

Lemma querySelector_has_class (c : string) (below : list nat)
    (ps : list panel_el) (id : nat) :
  querySelector c below ps = Some id → has_class c ps id = true ∧ id ∈ below.
Proof.
  unfold querySelector. intros H. apply find_some in H as [Hin Hc].
  split; [done|]. by apply list_elem_of_In.
Qed.

Lemma without_cons_ne (id x : nat) (l : list nat) :
  x ≠ id → without id (x :: l) = x :: without id l.
Proof. intros H. unfold without. by rewrite filter_cons_True. Qed.

Lemma without_cons_eq (id : nat) (l : list nat) :
  without id (id :: l) = without id l.
Proof. unfold without. rewrite filter_cons_False; [done|]. by intros ?. Qed.

Lemma elem_of_without (id x : nat) (l : list nat) :
  x ∈ without id l ↔ x ≠ id ∧ x ∈ l.
Proof. unfold without. by rewrite list_elem_of_filter. Qed.

(** *** Opening a drawer at rest *)

Lemma open_Closed (st : state) (de : details_el) (w : wrapper_el) (dr bd : nat) :
  Closed st de w dr bd →
  ∃ st1,
    open None st = (st1, Normal tt) ∧
    refs_details st1 = refs_details st ∧
    details st1 !! refs_details st =
      Some {| d_attrs := <["open" := ""]> (d_attrs de);
              d_classes := d_classes de;
              d_summary := <["aria-expanded" := "true"]> <$> d_summary de;
              d_children := without dr (without bd (d_children de)) |} ∧
    drawerWrapper st1 =
      Some {| w_classes := w_classes w;
              w_style := <["pointer-events" := "auto"]> (w_style w);
              w_children := [bd; dr];
              w_in_body := w_in_body w |} ∧
    panels st1 =
      (let ps := alter (λ p, p_set_click
                               (add_listener (CloseClosure (closures st)) (p_click p)) p)
                       bd (panels st) in
       match closeButton_of dr ps with
       | Some _ =>
           alter (λ p, p_set_close_button
                         (add_listener (CloseClosure (S (closures st)))
                            <$> p_close_button p) p) dr ps
       | None => ps
       end) ∧
    pending st1 = [Frame (refs_details st) (Some dr)] ∧
    body_overflow st1 = "hidden".
Proof.
  intros [Hde [sa Hsa] Hattr Hdr Hbd Hplain Hw Hempty Hquiet].
  assert (Hne : bd ≠ dr).
  { intros ->. apply querySelector_has_class in Hdr as [Hc _]. congruence. }
  destruct st as [d wr bb bc ku bo ds ps n pend ft]. simpl in *. subst wr pend.
  destruct w as [wc ws wch wb]. simpl in *. subst wch.
  unfold open, theDetails, bind, gets, ret. simpl.
  rewrite Hde. simpl. rewrite Hsa. simpl. rewrite Hdr, Hbd. simpl.
  unfold without at 1. rewrite filter_cons_True by done. simpl.
  destruct (closeButton_of dr _) as [l|]; simpl;
    (eexists; split; [reflexivity|]; simpl; split; [done|]; split;
     [|split; [done|split; [done|done]]]).
  all: rewrite !list_lookup_fmap, !list_lookup_alter_eq, Hde; simpl;
    unfold summary_setAttribute; simpl; by rewrite Hsa.
Qed.
Lemma open_relocates (st : state) (de : details_el) (w : wrapper_el) (dr bd : nat) :
  Closed st de w dr bd →
  ∃ st1, open None st = (st1, Normal tt) ∧
    relocated (refs_details st) dr bd st1 ∧
    pending st1 = [Frame (refs_details st) (Some dr)].
Proof.
  intros HC. pose proof HC as [Hde Hsa Hattr Hdr Hbd Hplain Hw Hempty Hquiet].
  destruct (open_Closed st de w dr bd HC)
    as (st1 & Hrun & Hrefs & Hde1 & Hw1 & Hps1 & Hpend & _).
  exists st1. split; [done|]. split; [|done].
  apply querySelector_has_class in Hdr as [Hdrc _].
  apply querySelector_has_class in Hbd as [Hbdc _].
  assert (Hcls : ∀ c id, has_class c (panels st1) id = has_class c (panels st) id).
  { intros c id. rewrite Hps1. cbv zeta.
    destruct (closeButton_of dr _); by rewrite ?has_class_alter. }
  unfold relocated; split_and!.
  - done.
  - eexists. split; [exact Hde1|]. simpl. destruct Hsa as [sa ->]. by eexists.
  - eexists. split; [exact Hw1|done].
  - by rewrite Hcls.
  - by rewrite Hcls.
  - by rewrite Hcls.
Qed.

(** *** The continuations while the drawer is shown *)

Lemma frame_relocated (d dr bd : nat) (x : option nat) (st : state) :
  relocated d dr bd st →
  ∃ st', frame_callback d x st = (st', Normal tt) ∧
    relocated d dr bd st' ∧
    pending st' = (pending st ++ [AnimationEnd (drawer_or x d) (TrapFocus d)])%list ∧
    body_overflow st' = body_overflow st.
Proof.
  intros (Hrefs & (de & Hde & Hsa) & (w & Hw & Hch) & Hc1 & Hc2 & Hc3).
  eexists. split; [reflexivity|]. simpl. unfold relocated; simpl; split_and!; try done.
  - eexists. rewrite list_lookup_alter_eq, Hde. split; [reflexivity|done].
  - rewrite Hw. eexists. split; [reflexivity|done].
Qed.

Lemma close_relocated (d dr bd : nat) (st : state) :
  relocated d dr bd st →
  ∃ st', close st = (st', Normal tt) ∧
    relocated d dr bd st' ∧
    pending st' =
      (pending st ++ [AnimationEnd (OnPanel dr) (CloseEnd d (Some dr) (Some bd))])%list ∧
    body_overflow st' = "".
Proof.
  intros (Hrefs & (de & Hde & Hsa) & (w & Hw & Hch) & Hc1 & Hc2 & Hc3).
  unfold close, bind, gets. simpl. rewrite Hrefs.
  rewrite (private_close_unfold d st de Hde). cbv zeta.
  rewrite Hw. simpl. rewrite Hch. unfold querySelector. simpl.
  rewrite Hc1, Hc2, Hc3. simpl.
  eexists. split; [reflexivity|]. simpl. unfold relocated; simpl; split_and!; try done.
  - eexists. rewrite !list_lookup_alter_eq, Hde. split; [reflexivity|].
    simpl. destruct Hsa as [sa ->]. by eexists.
  - eexists. split; [reflexivity|done].
Qed.
Lemma without_nil (id : nat) : without id [] = [].
Proof. done. Qed.

Lemma closeEnd_restores (d dr bd : nat) (st : state) :
  relocated d dr bd st →
  body_overflow st = "" →
  ∃ st', closeEnd_callback d (Some dr) (Some bd) st = (st', Normal tt) ∧
    restored st' dr bd ∧
    pending st' = pending st.
Proof.
  intros (Hrefs & (de & Hde & [sa Hsa]) & (w & Hw & Hch) & Hc1 & Hc2 & Hc3) Hbody.
  assert (Hne : bd ≠ dr) by (intros ->; congruence).
  destruct st as [d' wr bb bc ku bo ds ps n pend ft]. simpl in *. subst d' wr bo.
  destruct w as [wc ws wch wb]. simpl in *. subst wch.
  unfold closeEnd_callback, details_appendChild, reset, removeTrapFocus,
    alter_panel, alter_details, alter_wrapper, bind, gets, modify, ret.
  simpl.
  destruct (closeButton_of dr ps), bc, bb; simpl;
    rewrite ?without_cons_ne, ?without_cons_eq, ?without_nil by done; simpl;
    rewrite ?without_cons_ne, ?without_cons_eq, ?without_nil by done; simpl;
    (eexists; split; [reflexivity|]; split; [|done]).
  all: unfold restored; simpl.
  all: rewrite !list_lookup_alter_eq, !list_lookup_fmap, !list_lookup_alter_eq,
         !list_lookup_fmap, Hde; simpl.
  all: eexists _, _; split; [reflexivity|]; split; [reflexivity|]; simpl.
  all: split_and!;
    [ rewrite elem_of_app, elem_of_without, elem_of_app, list_elem_of_singleton;
      left; split; [congruence | by right]
    | rewrite elem_of_app, list_elem_of_singleton; by right
    | apply not_elem_of_nil
    | apply not_elem_of_nil
    | done
    | apply lookup_delete_eq
    | apply contains_remove
    | unfold summary_attr; simpl; rewrite Hsa; simpl; apply lookup_insert_eq ].
Qed.

(** *** Running a schedule *)

Lemma fire_unfold (k : nat) (t : task) (st : state) :
  pending st !! k = Some t →
  fire k st =
    run_task t (set_pending (take k (pending st) ++ drop (S k) (pending st)) st).
Proof.
  intros H. unfold fire, bind, gets, modify. simpl. by rewrite H.
Qed.

Section Cycle.
Variables d dr bd : nat.

Lemma Shown_open (st : state) (de : details_el) (w : wrapper_el) :
  Closed st de w dr bd → d = refs_details st →
  Shown d dr bd false [Frame d (Some dr)] (perform (Open None) st).1.
Proof.
  intros HC ->. destruct (open_relocates st de w dr bd HC) as (st1 & Hrun & Hrel & Hp).
  simpl. rewrite Hrun. by split_and!.
Qed.

Lemma Shown_frame (st : state) (b : bool) (ts : list task) (k : nat)
    (x : option nat) :
  Shown d dr bd b ts st → ts !! k = Some (Frame d x) →
  Shown d dr bd b
    (take k ts ++ drop (S k) ts ++ [AnimationEnd (drawer_or x d) (TrapFocus d)])
    (perform (Fire k) st).1.
Proof.
  intros (Hrel & Hp & Hb) Hk. subst ts. cbn [perform].
  rewrite (fire_unfold k _ st Hk). cbn [run_task run_callback].
  destruct (frame_relocated d dr bd x
              (set_pending (take k (pending st) ++ drop (S k) (pending st)) st))
    as (st' & Hrun & Hrel' & Hp' & Hb'); [done|].
  rewrite Hrun. simpl in *. split_and!; [done| |].
  - by rewrite Hp', <- app_assoc.
  - intros E. rewrite Hb'. by apply Hb.
Qed.

Lemma Shown_trapFocus (st : state) (b : bool) (ts : list task) (k : nat)
    (a : anim_target) :
  Shown d dr bd b ts st → ts !! k = Some (AnimationEnd a (TrapFocus d)) →
  Shown d dr bd b (take k ts ++ drop (S k) ts) (perform (Fire k) st).1.
Proof.
  intros (Hrel & Hp & Hb) Hk. subst ts. cbn [perform].
  rewrite (fire_unfold k _ st Hk). cbn [run_task run_callback]. by split_and!.
Qed.

Lemma Shown_close (st : state) (b : bool) (ts : list task) :
  Shown d dr bd b ts st →
  Shown d dr bd true
    (ts ++ [AnimationEnd (OnPanel dr) (CloseEnd d (Some dr) (Some bd))])
    (perform Close st).1.
Proof.
  intros (Hrel & Hp & Hb). subst ts. simpl.
  destruct (close_relocated d dr bd st Hrel) as (st' & Hrun & Hrel' & Hp' & Hb').
  rewrite Hrun. by split_and!.
Qed.

Lemma Home_closeEnd (st : state) (ts : list task) (k : nat) (a : anim_target) :
  Shown d dr bd true ts st →
  ts !! k = Some (AnimationEnd a (CloseEnd d (Some dr) (Some bd))) →
  Home dr bd (take k ts ++ drop (S k) ts) (perform (Fire k) st).1.
Proof.
  intros (Hrel & Hp & Hb) Hk. subst ts. cbn [perform].
  rewrite (fire_unfold k _ st Hk). cbn [run_task run_callback].
  destruct (closeEnd_restores d dr bd
              (set_pending (take k (pending st) ++ drop (S k) (pending st)) st))
    as (st' & Hrun & Hres & Hp'); [done|by apply Hb|].
  rewrite Hrun. by split.
Qed.

End Cycle.

Lemma sample_Closed : Closed sample sample_details sample_wrapper 1 0.
Proof.
  split; try reflexivity. by eexists.
Qed.


(** The order left out of [full_cycles]: when [close()] and its
    completion both come before the frame callback of [open], that
    callback puts [menu-open] back on a drawer that is already home. *)
Lemma overlapped_cycle_keeps_menu_open :
  (d_classes <$> details (run overlapped_cycle sample) !! 0%nat)
    = Some ["menu-open"] ∧
  (d_children <$> details (run overlapped_cycle sample) !! 0%nat)
    = Some [1; 0]%nat.
Proof. split; reflexivity. Qed.

(** *** Opening twice *)

Lemma bind_ret_tt {S} (m : M S unit) (s : S) : bind m (λ _, ret tt) s = m s.
Proof. unfold bind, ret. by destruct (m s) as [s' [[]|e]]. Qed.

(** [open] touches no panel outside the details element it resolves. *)
Lemma open_panels_outside (st : state) (ev : option event) (de : details_el)
    (id : nat) :
  details st !! getDetailsElement ev st = Some de →
  id ∉ d_children de →
  panels (open ev st).1 !! id = panels st !! id.
Proof.
  intros Hde Hid. unfold open, theDetails, bind, gets, ret. simpl.
  rewrite Hde. simpl.
  destruct (d_summary de) as [sa|]; [|done]. simpl.
  destruct (drawerWrapper st) as [w|]; [|done].
  destruct (querySelector "size-guide-drawer" (d_children de) (panels st))
    as [dr|] eqn:Hdr; [|done].
  apply querySelector_has_class in Hdr as [_ Hdr].
  destruct (querySelector "size-guide-drawer__backdrop" (d_children de) (panels st))
    as [b|] eqn:Hb; [|done].
  apply querySelector_has_class in Hb as [_ Hb].
  assert (b ≠ id) by (intros ->; done).
  assert (dr ≠ id) by (intros ->; done).
  simpl. destruct (closeButton_of dr _); simpl;
    by rewrite ?list_lookup_alter_ne.
Qed.
(** C4: opening a drawer at rest twice in a row leaves exactly one
    click listener on the backdrop and exactly one on the close button
    (the second [open] attaches nothing), so a click on either runs
    [close()] exactly once. *)
Theorem open_twice_one_listener (st : state) (de : details_el) (w : wrapper_el)
    (dr bd : nat) :
  Closed st de w dr bd →
  p_click <$> panels st !! bd = Some [] →
  closeButton_of dr (panels st) = Some [] →
  p_click <$> panels (run [Open None; Open None] st) !! bd
    = Some [CloseClosure (closures st)] ∧
  closeButton_of dr (panels (run [Open None; Open None] st))
    = Some [CloseClosure (S (closures st))] ∧
  perform (ClickPanel bd) (run [Open None; Open None] st)
    = close (run [Open None; Open None] st) ∧
  perform (ClickCloseButton dr) (run [Open None; Open None] st)
    = close (run [Open None; Open None] st).
Proof.
  intros HC Hclick Hbutton.
  destruct (open_Closed st de w dr bd HC)
    as (st1 & Hrun & Hrefs & Hde1 & Hw1 & Hps1 & Hpend & _).
  destruct HC as [Hde Hsa Hattr Hdr Hbd Hplain Hw Hempty Hquiet].
  assert (Hne : bd ≠ dr).
  { intros ->. apply querySelector_has_class in Hdr as [Hc _]. congruence. }
  unfold run. simpl foldl. rewrite Hrun. simpl fst.
  set (st2 := (open None st1).1).
  assert (Hout : ∀ id, id = bd ∨ id = dr → panels st2 !! id = panels st1 !! id).
  { intros id Hid. eapply (open_panels_outside st1 None).
    - simpl. rewrite Hrefs. exact Hde1.
    - simpl. rewrite !elem_of_without. destruct Hid as [-> | ->]; tauto. }
  destruct (panels st !! bd) as [pb|] eqn:Epb; [|done].
  destruct (panels st !! dr) as [pd|] eqn:Epd.
  2: { unfold closeButton_of in Hbutton. by rewrite Epd in Hbutton. }
  simpl in Hclick. injection Hclick as Hclick.
  unfold closeButton_of in Hbutton. rewrite Epd in Hbutton. simpl in Hbutton.
  assert (Hps : panels st1 =
            alter (λ p, p_set_close_button
                          (add_listener (CloseClosure (S (closures st)))
                             <$> p_close_button p) p) dr
              (alter (λ p, p_set_click
                             (add_listener (CloseClosure (closures st)) (p_click p)) p)
                     bd (panels st))).
  { rewrite Hps1. cbv zeta. unfold closeButton_of.
    rewrite list_lookup_alter_ne, Epd by done. simpl. by rewrite Hbutton. }
  assert (Hb2 : p_click <$> panels st2 !! bd = Some [CloseClosure (closures st)]).
  { rewrite Hout by tauto. rewrite Hps.
    rewrite list_lookup_alter_ne, list_lookup_alter_eq, Epb by done.
    simpl. by rewrite Hclick. }
  assert (Hd2 : closeButton_of dr (panels st2)
                = Some [CloseClosure (S (closures st))]).
  { unfold closeButton_of. rewrite Hout by tauto. rewrite Hps.
    rewrite list_lookup_alter_eq, list_lookup_alter_ne, Epd by done.
    simpl. by rewrite Hbutton. }
  split_and!; [done|done| |].
  - cbn [perform]. unfold click_panel, bind at 1, gets. cbn [fst snd].
    rewrite Hb2. apply bind_ret_tt.
  - cbn [perform]. unfold click_closeButton, bind at 1, gets. cbn [fst snd].
    rewrite Hd2. apply bind_ret_tt.
Qed.

Lemma open_twice_one_listener_sample :
  Closed sample sample_details sample_wrapper 1 0 ∧
  p_click <$> panels sample !! 0%nat = Some [] ∧
  closeButton_of 1 (panels sample) = Some [] ∧
  p_click <$> panels (run [Open None; Open None] sample) !! 0%nat
    = Some [CloseClosure 0] ∧
  closeButton_of 1 (panels (run [Open None; Open None] sample))
    = Some [CloseClosure 1].
Proof.
  split; [exact sample_Closed|]. split; [reflexivity|]. split; [reflexivity|].
  destruct (open_twice_one_listener sample sample_details sample_wrapper 1 0
              sample_Closed eq_refl eq_refl) as (H1 & H2 & _).
  split; [exact H1 | exact H2].
Defined.
End DrawerFacts.

(** * Further properties of the gallery *)
Module GalleryMore.
Import Gallery GalleryFacts.

(** *** What the constructor registers *)

Lemma forEach_thumb_wiring (items : list thumbnail) (from : nat) (g : gallery) :
  forEach_thumb items from g
  = (set_listeners (listeners g ++ thumb_wiring items from) g, Normal tt).
Proof.
  revert from g. induction items as [|it rest IH]; intros from g; simpl.
  - destruct g. unfold ret, set_listeners. simpl. by rewrite app_nil_r.
  - unfold bind. destruct (th_button it); simpl.
    + rewrite IH. simpl. by rewrite <- app_assoc.
    + apply IH.
Qed.

Lemma init_unfold (g : gallery) :
  init g =
    (updateNavigationState >> setThumbnailContainerAttributes >>
     addEventListener Window OnResize)
      (set_listeners (listeners g ++ wiring g) g).
Proof.
  unfold init, setupThumbnailNavigation, setupMainImageSwitching, setupScrollListener,
    wiring.
  destruct g as [mi tw items pb nb hm ci pv ts tg cc ls].
  set (rest := updateNavigationState >> setThumbnailContainerAttributes >>
               addEventListener Window OnResize).
  unfold bind, gets, addEventListener, modify, ret. cbn -[rest].
  destruct pb, nb; cbn -[rest]; rewrite forEach_thumb_wiring; cbn -[rest];
    destruct tw; cbn -[rest]; unfold set_listeners; cbn -[rest];
    by rewrite ?app_nil_r, <- ?app_assoc.
Qed.

(** The listeners of a fresh controller: the wiring, and the resize
    listener when [init] got that far. *)
Lemma constructor_listeners (c : container) :
  listeners (constructor c).1 =
    ((if q_prev c is Some _ then [(PrevBtn, OnNavClick Prev)] else []) ++
     (if q_next c is Some _ then [(NextBtn, OnNavClick Next)] else []) ++
     thumb_wiring (q_thumbnail_items c) 0 ++
     (if q_thumbnail_carousel_wrapper c is Some _ then [(Wrapper, OnScroll)] else []) ++
     (if returns (constructor c) then [(Window, OnResize)] else []))%list.
Proof.
  unfold constructor. rewrite init_unfold. unfold wiring. cbn [listeners app
    prevBtn nextBtn thumbnailItems thumbnailWrapper].
  unfold returns, bind, updateNavigationState, theWrapper, setThumbnailContainerAttributes,
    addEventListener, gets, modify, ret, throw. simpl.
  destruct (q_prev c), (q_next c), (q_thumbnail_carousel_wrapper c),
    (q_carousel_container c); simpl; by rewrite <- ?app_assoc, ?app_nil_r.
Qed.

Lemma run_handler_listeners (h : handler) (g : gallery) :
  listeners (run_handler h g).1 = listeners g.
Proof.
  destruct h as [d|index| |]; simpl.
  - by apply (preserves_scrollThumbnails listeners).
  - by apply (preserves_switchMainImage listeners).
  - by apply (preserves_updateNavigationState listeners).
  - apply (preserves_bind listeners).
    + by apply preserves_updateThumbnailsPerView.
    + intros _. by apply preserves_updateNavigationState.
Qed.

Lemma foldl_listeners (t : target) (l : list (target * handler)) (g : gallery) :
  listeners
    (foldl (λ g '(t', h), if bool_decide (t' = t) then (run_handler h g).1 else g) g l)
  = listeners g.
Proof.
  revert g. induction l as [|[t' h] l IH]; intros g; simpl; [done|].
  rewrite IH. destruct (bool_decide (t' = t)); [|done].
  apply run_handler_listeners.
Qed.

Lemma dispatch_listeners (t : target) (g : gallery) :
  listeners (dispatch t g) = listeners g.
Proof. apply foldl_listeners. Qed.

Lemma invoke_listeners (k : call) (g : gallery) :
  listeners (invoke k g).1 = listeners g.
Proof.
  destruct k; simpl.
  - by apply (preserves_switchMainImage listeners).
  - by apply (preserves_ensureThumbnailVisible listeners).
  - by apply (preserves_scrollThumbnails listeners).
  - by apply (preserves_updateNavigationState listeners).
  - by apply (preserves_setThumbnailContainerAttributes listeners).
  - by apply (preserves_updateThumbnailsPerView listeners).
Qed.

Lemma reachable_listeners (c : container) (g : gallery) :
  reachable c g → listeners g = listeners (constructor c).1.
Proof.
  induction 1 as [|g t _ IH|g k _ IH _]; [done| |].
  - by rewrite dispatch_listeners.
  - by rewrite invoke_listeners.
Qed.

(** *** Delivering an event *)

Section Deliver.
Variable t : target.

Let deliver (g : gallery) (l : list (target * handler)) : gallery :=
  foldl (λ g '(t', h), if bool_decide (t' = t) then (run_handler h g).1 else g) g l.

Lemma deliver_app (g : gallery) (l1 l2 : list (target * handler)) :
  deliver g (l1 ++ l2) = deliver (deliver g l1) l2.
Proof. apply foldl_app. Qed.

Lemma deliver_elsewhere (g : gallery) (l : list (target * handler)) :
  Forall (λ th, th.1 ≠ t) l → deliver g l = g.
Proof.
  intros Hl. revert g. induction Hl as [|[t' h] l Hne _ IH]; intros g; simpl; [done|].
  simpl in Hne. by rewrite bool_decide_eq_false_2, IH.
Qed.

Lemma deliver_one (g : gallery) (h : handler) :
  deliver g [(t, h)] = (run_handler h g).1.
Proof. simpl. by rewrite bool_decide_eq_true_2. Qed.

Lemma deliver_thumb_wiring (g : gallery) (items : list thumbnail) (from : nat) :
  deliver g (thumb_wiring items from) =
    match t with
    | ThumbBtn k =>
        if bool_decide (from ≤ k)%nat then
          match items !! (k - from)%nat with
          | Some it =>
              if th_button it then (switchMainImage (Z.of_nat k) g).1 else g
          | None => g
          end
        else g
    | _ => g
    end.
Proof.
  revert from g. induction items as [|it rest IH]; intros from g.
  - simpl. destruct t; try done. by destruct (bool_decide _).
  - cbn [thumb_wiring]. rewrite deliver_app, IH.
    destruct t as [| |k| |]; try (by destruct (th_button it); simpl).
    destruct (decide (k = from)) as [->|Hne].
    + rewrite bool_decide_eq_false_2 by lia.
      rewrite bool_decide_eq_true_2 by lia.
      replace (from - from)%nat with 0%nat by lia. simpl.
      destruct (th_button it); simpl; [|done].
      by rewrite bool_decide_eq_true_2.
    + assert (Hskip : deliver g
                (if th_button it
                 then [(ThumbBtn from, OnThumbClick (Z.of_nat from))] else []) = g).
      { destruct (th_button it); simpl; [|done].
        rewrite bool_decide_eq_false_2; [done|]. intros [=]. lia. }
      rewrite Hskip.
      destruct (decide (from ≤ k)%nat) as [Hle|Hgt].
      * rewrite !bool_decide_eq_true_2 by lia.
        replace (k - from)%nat with (S (k - S from)) by lia. done.
      * by rewrite !bool_decide_eq_false_2 by lia.
Qed.
End Deliver.

(** X1: for a controller built over a page, however it got to its
    present state, an event on a button, on the scroll container or on the
    window runs exactly the one method registered for it, and does nothing
    when the element was missing at construction (or, for resize, when
    the constructor threw before registering it). *)
Theorem dispatch_is_reaction (c : container) (g : gallery) (t : target) :
  reachable c g → dispatch t g = (reaction c t g).1.
Proof.
  intros Hr. unfold dispatch.
  rewrite (reachable_listeners c g Hr), constructor_listeners.
  rewrite !deliver_app, deliver_thumb_wiring.
  destruct t as [| |k| |]; simpl.
  - destruct (q_prev c), (q_next c), (q_thumbnail_carousel_wrapper c),
      (returns (constructor c)); simpl; by rewrite ?bool_decide_eq_true_2.
  - destruct (q_prev c), (q_next c), (q_thumbnail_carousel_wrapper c),
      (returns (constructor c)); simpl; by rewrite ?bool_decide_eq_true_2.
  - rewrite Nat.sub_0_r.
    destruct (q_prev c), (q_next c), (q_thumbnail_carousel_wrapper c),
      (returns (constructor c)); simpl;
      by repeat case_match.
  - destruct (q_prev c), (q_next c), (q_thumbnail_carousel_wrapper c),
      (returns (constructor c)); simpl; by rewrite ?bool_decide_eq_true_2.
  - destruct (q_prev c), (q_next c), (q_thumbnail_carousel_wrapper c),
      (returns (constructor c)); simpl; by rewrite ?bool_decide_eq_true_2.
Qed.

Lemma dispatch_is_reaction_sample :
  reachable sample_container sample ∧
  dispatch (ThumbBtn 2) sample = (switchMainImage 2 sample).1.
Proof.
  split; [apply reach_constructed|].
  by rewrite (dispatch_is_reaction sample_container sample (ThumbBtn 2)
                (reach_constructed sample_container)).
Defined.

(** *** The active marker *)

Lemma item_alter_item {A} (f : A → A) (i j : Z) (l : list A) :
  item (alter_item f i l) j =
    if bool_decide (i = j) then f <$> item l j else item l j.
Proof.
  unfold item, alter_item. destruct (j <? 0) eqn:Ej.
  - by destruct (bool_decide (i = j)).
  - destruct (decide (i = j)) as [->|Hne].
    + rewrite bool_decide_eq_true_2, Ej by done. apply list_lookup_alter_eq.
    + rewrite bool_decide_eq_false_2 by done.
      destruct (i <? 0) eqn:Ei; [done|].
      apply list_lookup_alter_ne. lia.
Qed.

Lemma contains_add (c : string) (l : list string) :
  ClassList.contains c (ClassList.add c l) = true.
Proof.
  unfold ClassList.add. destruct (ClassList.contains c l) eqn:E; [done|].
  unfold ClassList.contains. apply bool_decide_eq_true_2.
  apply elem_of_app. right. by apply list_elem_of_singleton.
Qed.

(** The thumbnails after [switchMainImage], whether it returned or
    threw on the way. *)
Lemma switchMainImage_thumbnailItems (g : gallery) (index : Z) :
  index ≠ currentIndex g →
  thumbnailItems (switchMainImage index g).1 =
    alter_item (th_add "active") index
      (alter_item (th_remove "active") (currentIndex g) (thumbnailItems g)).
Proof.
  intros Hne. rewrite switchMainImage_unfold by done. cbv zeta.
  destruct (hiddenMedia g) as [pool|]; [|done].
  destruct (query_media_index pool (pretty index)),
    (mainImageContainer g) as [[[content|]]|]; simpl; try done;
    by rewrite (preserves_ensureThumbnailVisible thumbnailItems).
Qed.

(** X2: when no thumbnail but the current one carries the active marker,
    [switchMainImage] with another index leaves the marker on the
    thumbnail of that index and on no other, also when the call throws
    further down; the thumbnail of an index in range does carry it. *)
Theorem switchMainImage_moves_active (g : gallery) (index : Z) :
  index ≠ currentIndex g →
  (∀ j t, item (thumbnailItems g) j = Some t → j ≠ currentIndex g →
          is_active t = false) →
  (∀ j t, item (thumbnailItems (switchMainImage index g).1) j = Some t →
          (is_active t = true ↔ j = index)) ∧
  (in_range g index →
   ∃ t, item (thumbnailItems (switchMainImage index g).1) index = Some t ∧
        is_active t = true).
Proof.
  intros Hne Hothers. rewrite switchMainImage_thumbnailItems by done. split.
  - intros j t. rewrite !item_alter_item.
    destruct (decide (index = j)) as [<-|Hj].
    + rewrite bool_decide_eq_true_2 by done.
      rewrite bool_decide_eq_false_2 by done.
      destruct (item (thumbnailItems g) index) as [t0|]; [|done].
      simpl. intros [= <-]. split; [done|]. intros _. apply contains_add.
    + rewrite (bool_decide_eq_false_2 (index = j)) by done.
      destruct (decide (currentIndex g = j)) as [<-|Hc].
      * rewrite bool_decide_eq_true_2 by done.
        destruct (item (thumbnailItems g) (currentIndex g)) as [t0|]; [|done].
        simpl. intros [= <-]. unfold is_active. simpl.
        rewrite DrawerFacts.contains_remove. split; [done|]. intros E. by destruct Hj.
      * rewrite bool_decide_eq_false_2 by done. intros Ht.
        rewrite (Hothers j t Ht) by done. split; [done|]. intros E. by destruct Hj.
  - intros [Hlo Hhi]. rewrite !item_alter_item.
    rewrite bool_decide_eq_true_2 by done.
    rewrite bool_decide_eq_false_2 by done.
    destruct (item (thumbnailItems g) index) as [t0|] eqn:E.
    + eexists. split; [reflexivity|]. apply contains_add.
    + unfold item in E. destruct (index <? 0) eqn:E0; [lia|].
      apply lookup_ge_None in E. lia.
Qed.

Lemma switchMainImage_moves_active_sample :
  3 ≠ currentIndex sample ∧
  (∀ j t, item (thumbnailItems sample) j = Some t → j ≠ currentIndex sample →
          is_active t = false) ∧
  (is_active <$> item (thumbnailItems (switchMainImage 3 sample).1) 3) = Some true ∧
  (is_active <$> item (thumbnailItems (switchMainImage 3 sample).1) 0) = Some false.
Proof.
  assert (Hothers : ∀ j t, item (thumbnailItems sample) j = Some t →
            j ≠ currentIndex sample → is_active t = false).
  { intros j t Ht Hj. change (currentIndex sample) with 0 in Hj.
    unfold item in Ht. destruct (j <? 0) eqn:E; [done|].
    destruct (Z.to_nat j) as [|[|[|[|[|n]]]]] eqn:En; simpl in Ht;
      try (injection Ht as <-; reflexivity); [lia|done]. }
  split; [discriminate|]. split; [exact Hothers|].
  destruct (switchMainImage_moves_active sample 3 ltac:(discriminate) Hothers)
    as [Honly Hthere].
  split.
  - destruct Hthere as (t & -> & Ht); [by vm_compute|]. simpl. by rewrite Ht.
  - destruct (item (thumbnailItems (switchMainImage 3 sample).1) 0) as [t|] eqn:E;
      [|done].
    simpl. destruct (is_active t) eqn:Ea; [|done].
    apply (Honly 0 t E) in Ea. discriminate.
Defined.

(** *** A page without the scroll container *)

(** X3: without a [.thumbnail-carousel-wrapper] the methods that read it
    throw a [TypeError] and leave the state as it was: [scrollThumbnails]
    and [updateThumbnailsPerView] always, [updateNavigationState] when
    both buttons exist, [ensureThumbnailVisible] when the thumbnail
    exists.  With a button missing, or for an index that names no
    thumbnail, the last two return at their guard and change nothing. *)
Theorem missing_wrapper_throws (g : gallery) :
  thumbnailWrapper g = None →
  (∀ d, scrollThumbnails d g
        = (g, Throw (TypeError "this.thumbnailWrapper is null"))) ∧
  updateThumbnailsPerView g
    = (g, Throw (TypeError "this.thumbnailWrapper is null")) ∧
  updateNavigationState g
    = (g, if prevBtn g is Some _
          then if nextBtn g is Some _
               then Throw (TypeError "this.thumbnailWrapper is null")
               else Normal tt
          else Normal tt) ∧
  (∀ index,
     ensureThumbnailVisible index g
     = (g, if item (thumbnailItems g) index is Some _
           then Throw (TypeError "this.thumbnailWrapper is null")
           else Normal tt)).
Proof.
  intros Hw. split_and!.
  - intros d. unfold scrollThumbnails, theWrapper, bind, gets, throw. simpl.
    by rewrite Hw.
  - unfold updateThumbnailsPerView, theWrapper, bind, gets, throw. simpl.
    by rewrite Hw.
  - unfold updateNavigationState, theWrapper, bind, gets, throw. simpl.
    destruct (prevBtn g), (nextBtn g); try done. by rewrite Hw.
  - intros index.
    unfold ensureThumbnailVisible, theWrapper, bind, gets, throw. simpl.
    destruct (item (thumbnailItems g) index); [|done]. by rewrite Hw.
Qed.

Lemma missing_wrapper_throws_sample :
  thumbnailWrapper sample_no_wrapper = None ∧
  returns (scrollThumbnails Next sample_no_wrapper) = false ∧
  returns (ensureThumbnailVisible 1 sample_no_wrapper) = false.
Proof.
  split; [reflexivity|].
  destruct (missing_wrapper_throws sample_no_wrapper eq_refl) as (Hs & _ & _ & He).
  by rewrite Hs, He.
Defined.

Lemma constructor_returns (c : container) :
  returns (constructor c) =
    match q_prev c, q_next c, q_thumbnail_carousel_wrapper c with
    | Some _, Some _, None => false
    | _, _, _ => true
    end.
Proof.
  unfold constructor. rewrite init_unfold.
  unfold returns, bind, updateNavigationState, theWrapper, setThumbnailContainerAttributes,
    addEventListener, gets, modify, ret, throw. simpl.
  by destruct (q_prev c), (q_next c), (q_thumbnail_carousel_wrapper c),
    (q_carousel_container c).
Qed.

Lemma resize_not_in_thumb_wiring (items : list thumbnail) (from : nat) :
  (Window, OnResize) ∉ thumb_wiring items from.
Proof.
  revert from. induction items as [|it rest IH]; intros from; simpl.
  - apply not_elem_of_nil.
  - rewrite elem_of_app. intros [H|H]; [|by apply IH in H].
    destruct (th_button it); [|by apply elem_of_nil in H].
    by apply list_elem_of_singleton in H.
Qed.

(** X4: the constructor runs to its end unless the page has both
    navigation buttons and no scroll container; in that case it throws
    out of [updateNavigationState], after the click and scroll listeners
    are registered and before [data-items-count] is written and the resize
    listener is added. *)
Theorem constructor_returns_iff (c : container) :
  (returns (constructor c) = true ↔
   ¬ (is_Some (q_prev c) ∧ is_Some (q_next c) ∧
      q_thumbnail_carousel_wrapper c = None)) ∧
  carouselContainer (constructor c).1 =
    (if returns (constructor c)
     then <["data-items-count" := pretty (Z.of_nat (length (q_thumbnail_items c)))]>
            <$> q_carousel_container c
     else q_carousel_container c) ∧
  ((Window, OnResize) ∈ listeners (constructor c).1 ↔ returns (constructor c) = true).
Proof.
  split_and!.
  - rewrite constructor_returns.
    destruct (q_prev c) as [p|], (q_next c) as [n|],
      (q_thumbnail_carousel_wrapper c) as [w|]; split; try done.
    all: try (intros _ (Hp & Hn & Hw); first [done | by destruct Hp | by destruct Hn]).
    intros H. destruct H. by eauto.
  - rewrite constructor_returns. unfold constructor. rewrite init_unfold.
    unfold bind, updateNavigationState, theWrapper, setThumbnailContainerAttributes,
      addEventListener, gets, modify, ret, throw. simpl.
    by destruct (q_prev c), (q_next c), (q_thumbnail_carousel_wrapper c),
      (q_carousel_container c).
  - rewrite constructor_listeners. rewrite !elem_of_app.
    destruct (returns (constructor c)).
    + split; [done|]. intros _. do 4 right. by apply list_elem_of_singleton.
    + split; [|done]. intros [H|[H|[H|[H|H]]]].
      * destruct (q_prev c); [by apply list_elem_of_singleton in H|by apply elem_of_nil in H].
      * destruct (q_next c); [by apply list_elem_of_singleton in H|by apply elem_of_nil in H].
      * by apply resize_not_in_thumb_wiring in H.
      * destruct (q_thumbnail_carousel_wrapper c);
          [by apply list_elem_of_singleton in H|by apply elem_of_nil in H].
      * by apply elem_of_nil in H.
Qed.

(** *** Thumbnails per view *)

(** X5: with the scroll container present and a positive item width
    (size plus gap), [updateThumbnailsPerView] stores the number [n] of
    whole items that fit the container's width:
    n * itemWidth <= offsetWidth < (n + 1) * itemWidth; nothing else
    changes. *)
Theorem updateThumbnailsPerView_fits (g : gallery) (w : scroller) (size gap : Z) :
  thumbnailWrapper g = Some w →
  thumbnailSize g = JNum size →
  thumbnailGap g = JNum gap →
  0 < size + gap →
  ∃ n, updateThumbnailsPerView g = (set_thumbnailsPerView (JNum n) g, Normal tt) ∧
       n * (size + gap) ≤ offsetWidth w < (n + 1) * (size + gap).
Proof.
  intros Hw Hs Hg Hpos.
  unfold updateThumbnailsPerView, theWrapper, bind, gets, modify, ret. simpl.
  rewrite Hw, Hs, Hg. simpl.
  destruct (size + gap =? 0) eqn:E; [lia|].
  eexists. split; [reflexivity|].
  pose proof (Z.mul_div_le (offsetWidth w) (size + gap) Hpos).
  pose proof (Z.mul_succ_div_gt (offsetWidth w) (size + gap) Hpos).
  lia.
Qed.

Lemma updateThumbnailsPerView_fits_sample :
  thumbnailWrapper sample = Some sample_wrapper ∧
  thumbnailSize sample = JNum 100 ∧
  thumbnailGap sample = JNum 10 ∧
  thumbnailsPerView (updateThumbnailsPerView sample).1 = JNum 2.
Proof.
  split; [reflexivity|]. split; [reflexivity|]. split; [reflexivity|].
  destruct (updateThumbnailsPerView_fits sample sample_wrapper 100 10)
    as (n & Hrun & Hlo & Hhi); [reflexivity..|].
  rewrite Hrun. simpl. f_equal. unfold sample_wrapper in *. simpl in *. lia.
Defined.

(** *** Showing the selected image *)

(** X6: for an index other than the current one whose node is in the
    hidden pool, with a main display that holds a media node and with the
    scroll container present, [switchMainImage] returns normally; the
    main display then shows the pool node's media (its own when that node
    has none), the zoom button is the one that was there with
    [data-current-index] set to the index, [currentIndex] is the index and
    the pool is untouched. *)
Theorem switchMainImage_shows_media (g : gallery) (index : Z)
    (pool : list hidden_node) (el : hidden_node) (content : media_container)
    (old : media_content) (w : scroller) :
  index ≠ currentIndex g →
  hiddenMedia g = Some pool →
  query_media_index pool (pretty index) = Some el →
  mainImageContainer g = Some {| main_content := Some content |} →
  media content = Some old →
  thumbnailWrapper g = Some w →
  ∃ g', switchMainImage index g = (g', Normal tt) ∧
    data_media_index el = pretty index ∧
    shown_media g' = Some (default old (hn_media el)) ∧
    shown_zoom g' = retarget_zoom index <$> zoom_button content ∧
    (∀ zb, shown_zoom g' = Some zb →
           zb !! "data-current-index" = Some (pretty index)) ∧
    currentIndex g' = index ∧
    hiddenMedia g' = Some pool.
Proof.
  intros Hne Hpool Hel Hmain Hmedia Hw.
  rewrite switchMainImage_unfold by done. cbv zeta.
  rewrite Hpool, Hel, Hmain. simpl.
  assert (Hvis : ∀ g1, thumbnailWrapper g1 = Some w →
            ∃ g', ensureThumbnailVisible index g1 = (g', Normal tt) ∧
              mainImageContainer g' = mainImageContainer g1 ∧
              currentIndex g' = currentIndex g1 ∧ hiddenMedia g' = hiddenMedia g1).
  { intros g1 Hw1. destruct (item (thumbnailItems g1) index) as [th|] eqn:Hth.
    - rewrite (ensureThumbnailVisible_unfold g1 index th w Hth Hw1).
      repeat destruct (Qlt_bool _ _); eauto.
    - unfold ensureThumbnailVisible, bind, gets. simpl. rewrite Hth. eauto. }
  match goal with
  | |- ∃ g', ensureThumbnailVisible _ ?g1 = _ ∧ _ =>
      destruct (Hvis g1 Hw) as (g' & Hrun & Hm & Hc & Hh)
  end.
  exists g'.
  split; [done|]. split.
  { unfold query_media_index in Hel. apply find_some in Hel as [_ Hel].
    by apply String.eqb_eq in Hel. }
  unfold shown_media, shown_zoom. rewrite Hm, Hc, Hh. simpl.
  rewrite Hmedia. split_and!; try done.
  - by destruct (hn_media el).
  - intros zb. destruct (zoom_button content) as [zb0|]; [|done].
    simpl. intros [= <-]. unfold retarget_zoom. apply lookup_insert_eq.
Qed.

Lemma switchMainImage_shows_media_sample :
  3 ≠ currentIndex sample ∧
  hiddenMedia sample = Some sample_pool ∧
  shown_media sample = Some (sample_media "image-0") ∧
  shown_media (switchMainImage 3 sample).1 = Some (sample_media "image-3").
Proof.
  split; [discriminate|]. split; [reflexivity|]. split; [reflexivity|].
  destruct (switchMainImage_shows_media sample 3 sample_pool
              {| data_media_index := "3"; hn_media := Some (sample_media "image-3") |}
              {| zoom_button := Some (<["on:click" := "/zoom-dialog/open/0"]> ∅);
                 media := Some (sample_media "image-0") |}
              (sample_media "image-0") sample_wrapper)
    as (g' & Hrun & _ & Hmedia & _); [discriminate|reflexivity..|].
  by rewrite Hrun.
Defined.

(** *** Scrolling the strip *)

(** X7: with the scroll container present, [scrollThumbnails('next')]
    followed by [scrollThumbnails] with any other direction issues two
    scroll requests of 80% of the container's [offsetWidth], the second
    the opposite of the first, and changes nothing else. *)
Theorem scrollThumbnails_next_then_back (g : gallery) (w : scroller) (d : direction) :
  thumbnailWrapper g = Some w →
  d ≠ Next →
  bind (scrollThumbnails Next) (λ _, scrollThumbnails d) g =
    (set_thumbnailWrapper
       (Some (scrollBy (- (inject_Z (offsetWidth w) * (8 # 10)))
                (scrollBy (inject_Z (offsetWidth w) * (8 # 10)) w))) g,
     Normal tt).
Proof.
  intros Hw Hd.
  unfold scrollThumbnails, wrapperScrollBy, theWrapper, bind, gets, modify, ret.
  simpl. rewrite Hw. simpl. rewrite Hw. simpl.
  by destruct d.
Qed.

Lemma scrollThumbnails_next_then_back_sample :
  thumbnailWrapper sample = Some sample_wrapper ∧
  requests (bind (scrollThumbnails Next) (λ _, scrollThumbnails Prev) sample).1
    = [(320 * (8 # 10))%Q; (- (320 * (8 # 10)))%Q].
Proof.
  split; [reflexivity|].
  by rewrite (scrollThumbnails_next_then_back sample sample_wrapper Prev).
Defined.

(** *** The numbers the constructor stores *)


(** *** Switching without a source *)

(** X16: for an index other than the current one, when the hidden pool
    holds no node for the index (and the scroll container is present),
    [switchMainImage] returns normally with the main display untouched:
    the active marker moves and [currentIndex] becomes the index while the
    display keeps showing what it showed. *)
Theorem switchMainImage_without_node (g : gallery) (index : Z)
    (pool : list hidden_node) (w : scroller) :
  index ≠ currentIndex g →
  hiddenMedia g = Some pool →
  query_media_index pool (pretty index) = None →
  thumbnailWrapper g = Some w →
  ∃ g', switchMainImage index g = (g', Normal tt) ∧
    mainImageContainer g' = mainImageContainer g ∧
    currentIndex g' = index ∧
    thumbnailItems g' =
      alter_item (th_add "active") index
        (alter_item (th_remove "active") (currentIndex g) (thumbnailItems g)).
Proof.
  intros Hne Hpool Hq Hw.
  rewrite switchMainImage_unfold by done. cbv zeta. rewrite Hpool, Hq.
  match goal with
  | |- ∃ g', ensureThumbnailVisible _ ?g1 = _ ∧ _ =>
      destruct (item (thumbnailItems g1) index) as [th|] eqn:Hth;
      [ rewrite (ensureThumbnailVisible_unfold g1 index th w Hth Hw);
        repeat destruct (Qlt_bool _ _); eexists; by split_and!
      | unfold ensureThumbnailVisible, bind, gets; cbn [fst snd];
        rewrite Hth; eexists; by split_and! ]
  end.
Qed.

Lemma switchMainImage_without_node_sample :
  7 ≠ currentIndex sample ∧
  hiddenMedia sample = Some sample_pool ∧
  query_media_index sample_pool (pretty 7) = None ∧
  shown_media (switchMainImage 7 sample).1 = shown_media sample.
Proof.
  split; [discriminate|]. split; [reflexivity|]. split; [reflexivity|].
  destruct (switchMainImage_without_node sample 7 sample_pool sample_wrapper)
    as (g' & Hrun & Hmain & _); [discriminate|reflexivity..|].
  rewrite Hrun. unfold shown_media. simpl. by rewrite Hmain.
Defined.

(** X17: for an index other than the current one, when the page has no
    [.hidden-media] pool, [switchMainImage] throws a [TypeError]: the
    active marker has moved by then, and [currentIndex], the main display
    and the scroll container are as they were. *)
Theorem switchMainImage_without_pool_throws (g : gallery) (index : Z) :
  index ≠ currentIndex g →
  hiddenMedia g = None →
  switchMainImage index g =
    (set_thumbnailItems
       (alter_item (th_add "active") index
          (alter_item (th_remove "active") (currentIndex g) (thumbnailItems g))) g,
     Throw (TypeError "this.hiddenMedia is null")).
Proof.
  intros Hne Hpool. rewrite switchMainImage_unfold by done. cbv zeta.
  by rewrite Hpool.
Qed.

Lemma switchMainImage_without_pool_throws_sample :
  2 ≠ currentIndex sample_no_pool ∧
  hiddenMedia sample_no_pool = None ∧
  returns (switchMainImage 2 sample_no_pool) = false ∧
  currentIndex (switchMainImage 2 sample_no_pool).1 = 0.
Proof.
  split; [discriminate|]. split; [reflexivity|].
  rewrite (switchMainImage_without_pool_throws sample_no_pool 2);
    [by split | discriminate | reflexivity].
Defined.
End GalleryMore.

(** * Further properties of the drawer *)
Module DrawerMore.
Import Drawer DrawerFacts.

(** *** Opening *)

(** X9: [open()] on a drawer at rest returns normally with the drawer
    shown: the details element carries [open] (so [isOpen] holds), its
    summary is expanded, the body's overflow is ["hidden"], the backdrop
    and the panel are the wrapper's children and no longer below the
    details element, the wrapper takes pointer events, and one frame
    callback is pending. *)
Theorem open_shows_drawer (st : state) (de : details_el) (w : wrapper_el)
    (dr bd : nat) :
  Closed st de w dr bd →
  ∃ st1 de1 w1,
    open None st = (st1, Normal tt) ∧
    isOpen st1 = true ∧
    body_overflow st1 = "hidden" ∧
    details st1 !! refs_details st1 = Some de1 ∧
    summary_attr "aria-expanded" de1 = Some "true" ∧
    (dr ∉ d_children de1) ∧ (bd ∉ d_children de1) ∧
    drawerWrapper st1 = Some w1 ∧
    w_children w1 = [bd; dr] ∧
    w_style w1 !! "pointer-events" = Some "auto" ∧
    pending st1 = [Frame (refs_details st) (Some dr)].
Proof.
  intros HC.
  destruct (open_Closed st de w dr bd HC)
    as (st1 & Hrun & Hrefs & Hde1 & Hw1 & _ & Hpend & Hbody).
  destruct HC as [Hde [sa Hsa] _ _ _ _ _ _ _].
  eexists st1, _, _. split; [done|].
  split. { unfold isOpen. rewrite Hrefs, Hde1. simpl.
           apply bool_decide_eq_true_2. rewrite lookup_insert_eq. by eexists. }
  split; [done|]. rewrite Hrefs. split; [exact Hde1|].
  split. { unfold summary_attr. simpl. rewrite Hsa. simpl. apply lookup_insert_eq. }
  split. { simpl. rewrite elem_of_without. tauto. }
  split. { simpl. rewrite !elem_of_without. tauto. }
  split; [exact Hw1|]. split; [done|]. split; [apply lookup_insert_eq|done].
Qed.

Lemma open_shows_drawer_sample :
  Closed sample sample_details sample_wrapper 1 0 ∧
  isOpen (open None sample).1 = true ∧
  body_overflow (open None sample).1 = "hidden".
Proof.
  split; [exact sample_Closed|].
  destruct (open_shows_drawer sample sample_details sample_wrapper 1 0 sample_Closed)
    as (st1 & de1 & w1 & Hrun & Hopen & Hbody & _).
  rewrite Hrun. by split.
Defined.

(** X10: when the details element holds a drawer panel and no backdrop,
    [open()] throws out of [appendChild]: by then the summary is expanded,
    [open] is set, the body's scroll is locked and the wrapper takes
    pointer events, while no element has moved, no listener is attached
    and no frame callback is scheduled. *)
Theorem open_without_backdrop_throws (st : state) (de : details_el)
    (w : wrapper_el) (dr : nat) :
  details st !! refs_details st = Some de →
  is_Some (d_summary de) →
  drawerWrapper st = Some w →
  querySelector "size-guide-drawer" (d_children de) (panels st) = Some dr →
  querySelector "size-guide-drawer__backdrop" (d_children de) (panels st) = None →
  ∃ st1 de1,
    open None st
      = (st1, Throw (TypeError "appendChild: parameter 1 is not of type 'Node'")) ∧
    isOpen st1 = true ∧
    body_overflow st1 = "hidden" ∧
    details st1 !! refs_details st1 = Some de1 ∧
    summary_attr "aria-expanded" de1 = Some "true" ∧
    d_children de1 = d_children de ∧
    drawerWrapper st1
      = Some (w_set_style (<["pointer-events" := "auto"]> (w_style w)) w) ∧
    panels st1 = panels st ∧
    pending st1 = pending st ∧
    boundBackdropClick st1 = boundBackdropClick st ∧
    boundCloseClick st1 = boundCloseClick st.
Proof.
  intros Hde [sa Hsa] Hw Hdr Hbd.
  unfold open, theDetails, bind, gets, ret. simpl.
  rewrite Hde. simpl. rewrite Hsa. simpl. rewrite Hdr, Hbd, Hw. simpl.
  eexists _, _. split; [reflexivity|]. simpl.
  unfold isOpen. simpl. rewrite !list_lookup_alter_eq, Hde. simpl.
  split. { apply bool_decide_eq_true_2. rewrite lookup_insert_eq. by eexists. }
  split; [done|]. split; [reflexivity|]. simpl.
  split. { unfold summary_attr. simpl. rewrite Hsa. simpl. apply lookup_insert_eq. }
  by rewrite Hw.
Qed.

Lemma open_without_backdrop_throws_sample :
  querySelector "size-guide-drawer" [0; 1]%nat (panels sample_no_backdrop) = Some 1%nat ∧
  querySelector "size-guide-drawer__backdrop" [0; 1]%nat (panels sample_no_backdrop)
    = None ∧
  returns (open None sample_no_backdrop) = false ∧
  isOpen (open None sample_no_backdrop).1 = true.
Proof.
  split; [reflexivity|]. split; [reflexivity|].
  destruct (open_without_backdrop_throws sample_no_backdrop sample_details
              sample_wrapper 1)
    as (st1 & de1 & Hrun & Hopen & _); [reflexivity|by eexists|reflexivity..|].
  rewrite Hrun. by split.
Defined.

(** *** Closing a drawer that is not shown *)

(** X11: [close()] on a drawer at rest, followed by its animation-end
    callback, leaves the drawer at rest: nothing moves, no listener
    changes, the body's overflow is empty, the focus trap is released and
    nothing stays pending. *)
Theorem close_at_rest (st : state) (de : details_el) (w : wrapper_el) (dr bd : nat) :
  Closed st de w dr bd →
  ∃ de' w',
    Closed (run [Close; Fire 0] st) de' w' dr bd ∧
    d_children de' = d_children de ∧
    panels (run [Close; Fire 0] st) = panels st ∧
    body_overflow (run [Close; Fire 0] st) = "" ∧
    focus_trap (run [Close; Fire 0] st) = None.
Proof.
  intros [Hde [sa Hsa] Hattr Hdr Hbd Hplain Hw Hempty Hquiet].
  set (st' := run [Close; Fire 0] st).
  eassert (Hst' : st' = _).
  { subst st'. unfold run. simpl foldl. cbn [perform].
    unfold close, bind at 1, gets at 1. cbn [fst snd].
    rewrite (private_close_unfold _ st de Hde). cbv zeta.
    rewrite Hw, Hquiet. cbn [fmap option_fmap option_map mbind option_bind
      w_set_classes w_children]. rewrite Hempty. cbn [querySelector List.find app fst].
    unfold fire, bind, gets, modify. cbn [pending set_pending fst snd lookup
      list_lookup take drop app run_task run_callback].
    unfold closeEnd_callback, reset, removeTrapFocus, alter_wrapper, alter_details,
      bind, gets, modify, ret. simpl. reflexivity. }
  rewrite Hst'. clear Hst' st'.
  eexists _, _. split; [split|].
  - simpl. rewrite !list_lookup_alter_eq, Hde. reflexivity.
  - simpl. rewrite Hsa. by eexists.
  - simpl. apply lookup_delete_eq.
  - simpl. exact Hdr.
  - simpl. exact Hbd.
  - simpl. exact Hplain.
  - simpl. reflexivity.
  - simpl. exact Hempty.
  - reflexivity.
  - simpl. done.
Qed.

Lemma close_at_rest_sample :
  Closed sample sample_details sample_wrapper 1 0 ∧
  (d_children <$> details (run [Close; Fire 0] sample) !! 0%nat) = Some [0; 1]%nat ∧
  pending (run [Close; Fire 0] sample) = [].
Proof.
  split; [exact sample_Closed|].
  destruct (close_at_rest sample sample_details sample_wrapper 1 0 sample_Closed)
    as (de' & w' & [Hde _ _ _ _ _ _ _ Hquiet] & Hch & _).
  change (refs_details (run [Close; Fire 0] sample)) with 0%nat in Hde.
  rewrite Hde. simpl. by rewrite Hch.
Defined.

(** *** Toggling *)

Lemma isOpen_alter (f : details_el → details_el) (d : nat) (st : state) :
  (∀ de, d_attrs (f de) = d_attrs de) →
  isOpen (set_details (alter f d (details st)) st) = isOpen st.
Proof.
  intros Hf. unfold isOpen. simpl.
  destruct (decide (d = refs_details st)) as [->|Hne].
  - rewrite list_lookup_alter_eq.
    destruct (details st !! refs_details st); simpl; [by rewrite Hf|done].
  - by rewrite list_lookup_alter_ne.
Qed.

Lemma isOpen_fire (k : nat) (st : state) (t : task) :
  pending st !! k = Some t →
  (∀ el d x y, t ≠ AnimationEnd el (CloseEnd d x y)) →
  isOpen (perform (Fire k) st).1 = isOpen st.
Proof.
  intros Hk Ht. cbn [perform]. rewrite (fire_unfold k t st Hk).
  destruct t as [d x|el [d|d x y]]; [| |by destruct (Ht el d x y)].
  - cbn [run_task]. unfold frame_callback, alter_details, alter_wrapper,
      onAnimationEnd, schedule, bind, modify. simpl.
    match goal with
    | |- isOpen ?s = _ =>
        change (isOpen s) with
          (isOpen (set_details
                     (alter (λ de, d_set_classes
                                     (ClassList.add "menu-open" (d_classes de)) de)
                            d (details st)) st))
    end.
    by apply isOpen_alter.
  - reflexivity.
Qed.

Lemma Closed_not_open (st : state) (de : details_el) (w : wrapper_el) (dr bd : nat) :
  Closed st de w dr bd → isOpen st = false.
Proof.
  intros [Hde _ Hattr _ _ _ _ _ _]. unfold isOpen. rewrite Hde.
  apply bool_decide_eq_false_2. rewrite Hattr. by intros [? ?].
Qed.

(** X12: [toggle()] opens a drawer at rest and closes a shown one: from
    rest, toggle, the frame callback and the open completion, toggle
    again and the close completion bring the drawer back home, as
    [open()] and [close()] would. *)
Theorem toggle_cycle_restores (st : state) (de : details_el) (w : wrapper_el)
    (dr bd : nat) :
  Closed st de w dr bd →
  perform Toggle st = open None st ∧
  perform Toggle (run [Toggle; Fire 0; Fire 0] st)
    = close (run [Toggle; Fire 0; Fire 0] st) ∧
  restored (run [Toggle; Fire 0; Fire 0; Toggle; Fire 0] st) dr bd.
Proof.
  intros HC.
  assert (Htoggle : perform Toggle st = open None st).
  { cbn [perform]. unfold toggle, bind, gets. cbn [fst snd].
    by rewrite (Closed_not_open st de w dr bd HC). }
  pose proof (Shown_open (refs_details st) dr bd st de w HC eq_refl) as H1.
  cbn [perform] in H1.
  pose proof (Shown_frame _ _ _ _ _ _ 0%nat _ H1 eq_refl) as H2. simpl in H2.
  pose proof (Shown_trapFocus _ _ _ _ _ _ 0%nat _ H2 eq_refl) as H3. simpl in H3.
  set (st3 := (perform (Fire 0) (perform (Fire 0) (open None st).1).1).1) in *.
  assert (Hopen3 : isOpen st3 = true).
  { destruct (open_shows_drawer st de w dr bd HC)
      as (st1 & de1 & w1 & Hrun & Hopen & _ & _ & _ & _ & _ & _ & _ & _ & Hpend).
    subst st3. rewrite Hrun in *. cbn [fst] in *.
    destruct H2 as (_ & Hp2 & _).
    rewrite (isOpen_fire 0 _ (AnimationEnd (OnPanel dr) (TrapFocus (refs_details st))));
      [|cbn [perform] in *; by rewrite Hp2|done].
    rewrite (isOpen_fire 0 _ (Frame (refs_details st) (Some dr)));
      [done|by rewrite Hpend|done]. }
  assert (Hrun3 : run [Toggle; Fire 0; Fire 0] st = st3).
  { unfold run. cbn [foldl]. by rewrite Htoggle. }
  assert (Htoggle3 : perform Toggle st3 = close st3).
  { cbn [perform]. unfold toggle, bind, gets. cbn [fst snd]. by rewrite Hopen3. }
  split; [done|]. split; [by rewrite Hrun3|].
  pose proof (Shown_close _ _ _ _ _ _ H3) as H4. simpl in H4.
  pose proof (Home_closeEnd _ _ _ _ _ 0%nat _ H4 eq_refl) as [H5 _].
  unfold run. cbn [foldl]. rewrite Htoggle. fold st3. by rewrite Htoggle3.
Qed.

Lemma toggle_cycle_restores_sample :
  Closed sample sample_details sample_wrapper 1 0 ∧
  restored (run [Toggle; Fire 0; Fire 0; Toggle; Fire 0] sample) 1 0.
Proof.
  split; [exact sample_Closed|].
  apply (toggle_cycle_restores sample sample_details sample_wrapper 1 0 sample_Closed).
Defined.

(** *** The click handlers over a cycle *)

Lemma open_wires (st : state) (de : details_el) (w : wrapper_el) (dr bd : nat) :
  Closed st de w dr bd →
  unwired dr bd st →
  wired (closures st) dr bd (open None st).1.
Proof.
  intros HC (_ & _ & Hclick & Hbutton).
  destruct (open_Closed st de w dr bd HC)
    as (st1 & Hrun & _ & _ & _ & Hps1 & _ & _).
  destruct HC as [Hde [sa Hsa] Hattr Hdr Hbd Hplain Hw Hempty Hquiet].
  assert (Hne : bd ≠ dr).
  { intros ->. apply querySelector_has_class in Hdr as [Hc _]. congruence. }
  destruct (panels st !! bd) as [pb|] eqn:Epb; [|done].
  simpl in Hclick. injection Hclick as Hclick.
  unfold closeButton_of in Hbutton.
  destruct (panels st !! dr) as [pd|] eqn:Epd; [|done]. simpl in Hbutton.
  assert (Hcb : closeButton_of dr
            (alter (λ p, p_set_click
                           (add_listener (CloseClosure (closures st)) (p_click p)) p)
                   bd (panels st)) = Some []).
  { unfold closeButton_of. by rewrite list_lookup_alter_ne, Epd by done. }
  unfold wired. split_and!.
  - unfold open, theDetails, bind, gets, ret. simpl.
    rewrite Hde. simpl. rewrite Hsa. simpl. rewrite Hdr, Hbd, Hw. simpl.
    by rewrite Hcb.
  - unfold open, theDetails, bind, gets, ret. simpl.
    rewrite Hde. simpl. rewrite Hsa. simpl. rewrite Hdr, Hbd, Hw. simpl.
    by rewrite Hcb.
  - rewrite Hrun. simpl. rewrite Hps1. cbv zeta. rewrite Hcb.
    rewrite list_lookup_alter_ne, list_lookup_alter_eq, Epb by done.
    simpl. by rewrite Hclick.
  - rewrite Hrun. simpl. rewrite Hps1. cbv zeta. rewrite Hcb.
    unfold closeButton_of.
    rewrite list_lookup_alter_eq, list_lookup_alter_ne, Epd by done.
    simpl. by rewrite Hbutton.
Qed.

Lemma wired_fire (n dr bd k : nat) (st : state) (t : task) :
  pending st !! k = Some t →
  (∀ el d x y, t ≠ AnimationEnd el (CloseEnd d x y)) →
  wired n dr bd st → wired n dr bd (perform (Fire k) st).1.
Proof.
  intros Hk Ht Hwired. cbn [perform]. rewrite (fire_unfold k t st Hk).
  destruct t as [d x|el [d|d x y]]; [done|done|by destruct (Ht el d x y)].
Qed.

Lemma wired_close (n dr bd : nat) (st : state) (de : details_el) :
  details st !! refs_details st = Some de →
  wired n dr bd st → wired n dr bd (perform Close st).1.
Proof.
  intros Hde Hwired. cbn [perform]. unfold close, bind at 1, gets at 1. cbn [fst snd].
  by rewrite (private_close_unfold _ st de Hde).
Qed.

Lemma closeEnd_unwires (d dr bd n : nat) (st : state) :
  relocated d dr bd st →
  wired n dr bd st →
  unwired dr bd (closeEnd_callback d (Some dr) (Some bd) st).1.
Proof.
  intros (Hrefs & _ & _ & Hc1 & Hc2 & _) (Hbb & Hbc & Hclick & Hbutton).
  assert (Hne : bd ≠ dr) by (intros ->; congruence).
  destruct (panels st !! bd) as [pb|] eqn:Epb; [|done].
  simpl in Hclick. injection Hclick as Hclick.
  pose proof Hbutton as Hbutton'. unfold closeButton_of in Hbutton'.
  destruct (panels st !! dr) as [pd|] eqn:Epd; [|done]. simpl in Hbutton'.
  unfold closeEnd_callback, details_appendChild, reset, removeTrapFocus,
    alter_panel, alter_details, alter_wrapper, bind, gets, modify, ret.
  simpl. rewrite Hbutton, Hbc. simpl. rewrite Hbb. simpl.
  unfold unwired. simpl. split_and!; try done.
  - rewrite list_lookup_alter_eq, list_lookup_alter_ne, Epb by done.
    simpl. rewrite Hclick. unfold remove_listener.
    by rewrite filter_cons_False, filter_nil by (by intros ?).
  - unfold closeButton_of.
    rewrite list_lookup_alter_ne, list_lookup_alter_eq, Epd by done.
    simpl. rewrite Hbutton'. simpl. unfold remove_listener.
    by rewrite filter_cons_False, filter_nil by (by intros ?).
Qed.

(** X13: over a cycle the click handlers do not pile up: [open()] on a
    drawer at rest with no handler attached leaves exactly its two fresh
    closures as the listeners of the backdrop and of the close button, and
    once [close()] has completed both are removed again and both bound
    fields are [null]. *)
Theorem cycle_detaches_handlers (st : state) (de : details_el) (w : wrapper_el)
    (dr bd : nat) :
  Closed st de w dr bd →
  unwired dr bd st →
  wired (closures st) dr bd (run [Open None] st) ∧
  unwired dr bd (run [Open None; Fire 0; Fire 0; Close; Fire 0] st).
Proof.
  intros HC Hun.
  pose proof (open_wires st de w dr bd HC Hun) as W1.
  split; [exact W1|].
  pose proof (Shown_open (refs_details st) dr bd st de w HC eq_refl) as H1.
  pose proof (Shown_frame _ _ _ _ _ _ 0%nat _ H1 eq_refl) as H2. simpl in H2.
  pose proof (Shown_trapFocus _ _ _ _ _ _ 0%nat _ H2 eq_refl) as H3. simpl in H3.
  pose proof (Shown_close _ _ _ _ _ _ H3) as H4. simpl in H4.
  cbn [perform] in H1.
  pose proof (wired_fire _ dr bd 0 _ _ ltac:(by rewrite (proj1 (proj2 H1)))
                ltac:(done) W1) as W2.
  pose proof (wired_fire _ dr bd 0 _ _ ltac:(by rewrite (proj1 (proj2 H2)))
                ltac:(done) W2) as W3.
  destruct H3 as (Hrel3 & Hp3 & Hb3).
  pose proof Hrel3 as (Hrefs3 & (de3 & Hde3 & _) & _).
  rewrite <- Hrefs3 in Hde3.
  pose proof (wired_close _ dr bd _ de3 Hde3 W3) as W4.
  destruct H4 as (Hrel4 & Hp4 & Hb4).
  unfold run. cbn [foldl]. cbn [perform] in *.
  set (st4 := (close _).1) in *.
  rewrite (fire_unfold 0 _ st4 ltac:(by rewrite Hp4)). rewrite Hp4.
  cbn [take drop app run_task run_callback].
  by apply (closeEnd_unwires _ dr bd (closures st)).
Qed.

Lemma sample_unwired : unwired 1 0 sample.
Proof. by split_and!. Qed.

Lemma cycle_detaches_handlers_sample :
  Closed sample sample_details sample_wrapper 1 0 ∧
  unwired 1 0 sample ∧
  unwired 1 0 (run [Open None; Fire 0; Fire 0; Close; Fire 0] sample).
Proof.
  split; [exact sample_Closed|]. split; [exact sample_unwired|].
  apply (cycle_detaches_handlers sample sample_details sample_wrapper 1 0
           sample_Closed sample_unwired).
Defined.

(** *** Reconnecting while the drawer is shown *)

Lemma run_app (l1 l2 : list action) (st : state) :
  run (l1 ++ l2) st = run l2 (run l1 st).
Proof. apply foldl_app. Qed.

(** X14: when the component is disconnected and connected again while
    its drawer is shown, the fresh wrapper is empty and the old one is
    dropped with the panel and the backdrop in it: a later [close()] and
    its completion reset the details element and unlock the scroll, and
    the panel and the backdrop are neither below the details element nor in
    the wrapper. *)
Theorem reconnect_loses_panel (st : state) (de : details_el) (w : wrapper_el)
    (dr bd : nat) :
  Closed st de w dr bd →
  ∃ de' w',
    details (run [Open None; Fire 0; Fire 0; Disconnect; Connect; Close; Fire 0] st)
      !! refs_details st = Some de' ∧
    drawerWrapper
      (run [Open None; Fire 0; Fire 0; Disconnect; Connect; Close; Fire 0] st)
      = Some w' ∧
    (dr ∉ d_children de') ∧ (bd ∉ d_children de') ∧
    w_children w' = [] ∧
    d_attrs de' !! "open" = None ∧
    body_overflow
      (run [Open None; Fire 0; Fire 0; Disconnect; Connect; Close; Fire 0] st) = "" ∧
    pending
      (run [Open None; Fire 0; Fire 0; Disconnect; Connect; Close; Fire 0] st) = [].
Proof.
  intros HC.
  destruct (open_Closed st de w dr bd HC)
    as (st1 & Hrun & Hrefs & Hde1 & Hw1 & _ & Hpend & _).
  destruct HC as [Hde [sa Hsa] _ _ _ _ _ _ _].
  set (st' := run [Open None; Fire 0; Fire 0; Disconnect; Connect; Close; Fire 0] st).
  destruct st1 as [d1 wr1 bb1 bc1 ku1 bo1 ds1 ps1 n1 pend1 ft1].
  simpl in Hrefs, Hde1, Hw1, Hpend. subst d1 wr1 pend1.
  eassert (Hst' : st' = _).
  { subst st'.
    change [Open None; Fire 0; Fire 0; Disconnect; Connect; Close; Fire 0]
      with ([Open None; Fire 0; Fire 0; Disconnect; Connect] ++ [Close; Fire 0])%list.
    rewrite run_app.
    set (s5 := run [Open None; Fire 0; Fire 0; Disconnect; Connect] st).
    eassert (H5 : s5 = _).
    { subst s5. unfold run. cbn [foldl perform]. rewrite Hrun. simpl. reflexivity. }
    rewrite H5. clear H5 s5.
    unfold run. cbn [foldl perform].
    unfold close, bind at 1, gets at 1. cbn [fst snd].
    erewrite private_close_unfold.
    2: { simpl. rewrite list_lookup_alter_eq, Hde1. reflexivity. }
    simpl. reflexivity. }
  rewrite Hst'. clear Hst' st'. simpl.
  rewrite !list_lookup_alter_eq, Hde1. simpl.
  eexists _, _. split; [reflexivity|]. split; [reflexivity|]. simpl.
  split_and!; try done.
  - rewrite elem_of_without. tauto.
  - rewrite !elem_of_without. tauto.
  - apply lookup_delete_eq.
Qed.

Lemma reconnect_loses_panel_sample :
  Closed sample sample_details sample_wrapper 1 0 ∧
  (d_children <$>
     details (run [Open None; Fire 0; Fire 0; Disconnect; Connect; Close; Fire 0]
                sample) !! 0%nat) = Some [] ∧
  (w_children <$>
     drawerWrapper (run [Open None; Fire 0; Fire 0; Disconnect; Connect; Close; Fire 0]
                      sample)) = Some [].
Proof.
  split; [exact sample_Closed|].
  destruct (reconnect_loses_panel sample sample_details sample_wrapper 1 0
              sample_Closed) as (de' & w' & Hde' & Hw' & _ & _ & Hempty & _).
  split; [reflexivity|]. rewrite Hw'. simpl. by rewrite Hempty.
Defined.

(** *** Key presses *)

End DrawerMore.
